(** * generate_data.py: synthetic telecom customers and transactions

    A shallow embedding of [src/generate_data.py].  Python floats are IEEE
    binary64 values (Rocq's primitive floats), Python ints are [Z], NumPy's
    global random stream and the wall clock are threaded through a small
    state-and-error monad, and a raised exception is [None]. *)

From Stdlib Require Import ZArith Floats List Bool String Ascii Lia.
From Stdlib Require Import DecimalString DecimalN.
Import ListNotations.

Set Warnings "-inexact-float".

Local Open Scope Z_scope.

(** ** Python's numeric built-ins *)

(** [float(n)] for a Python int: the binary64 value nearest to [n].  The
    program converts only ints truncated from floats and Poisson counts,
    which are within the float range. *)
Definition py_float (n : Z) : float :=
  SF2Prim (binary_normalize prec emax n 0 false).

(** [int(x)] truncates towards zero; it raises on a NaN ([ValueError]) and on
    an infinity ([OverflowError]). *)
Definition py_int (x : float) : option Z :=
  match Prim2SF x with
  | S754_zero _ => Some 0
  | S754_finite s m e =>
      let a := Z.shiftl (Zpos m) e in
      Some (if s then - a else a)
  | S754_infinity _ | S754_nan => None
  end.

(** Two-argument [max] and [min] keep their first argument unless the second
    one is strictly larger (smaller). *)
Definition py_max (a b : float) : float := if (a <? b)%float then b else a.
Definition py_min (a b : float) : float := if (b <? a)%float then b else a.

(** The integer nearest to [a / b], ties going to the even one ([0 < b]). *)
Definition round_half_even (a b : Z) : Z :=
  let q := a / b in
  match (2 * (a mod b)) ?= b with
  | Lt => q
  | Gt => q + 1
  | Eq => if Z.even q then q else q + 1
  end.

(** The binary64 value nearest to [n / 100], signed by [s]: what [strtod]
    returns on a decimal numeral with two fractional digits. *)
Definition of_hundredths (s : bool) (n : positive) : float :=
  SF2Prim (SF64div (S754_finite s n 0) (S754_finite false 100 0)).

(** [round(x, 2)]: the exact value of [x] is rounded half-even to two
    decimals, and the decimal is read back as a float.  Integral values,
    infinities and NaN round to themselves. *)
Definition py_round2 (x : float) : float :=
  match Prim2SF x with
  | S754_finite s m e =>
      if 0 <=? e then x
      else
        match round_half_even (100 * Zpos m) (2 ^ (- e)) with
        | Zpos n => of_hundredths s n
        | _ => if s then neg_zero else PrimFloat.zero
        end
  | _ => x
  end.

(** The truth value of an int in a condition. *)
Definition truthy (n : Z) : bool := negb (n =? 0).

(** A float that is neither NaN nor infinite. *)
Definition finite (x : float) : bool :=
  match Prim2SF x with
  | S754_zero _ | S754_finite _ _ _ => true
  | S754_infinity _ | S754_nan => false
  end.

(** ** Identifier formatting *)

Fixpoint zeros (n : nat) : string :=
  match n with
  | O => EmptyString
  | S n' => String "0" (zeros n')
  end.

(** [f"{n:0<width>d}"] for a non-negative [n]. *)
Definition zero_padded (width : nat) (n : Z) : string :=
  let digits := NilZero.string_of_uint (N.to_uint (Z.to_N n)) in
  (zeros (width - String.length digits) ++ digits)%string.

(** ** NumPy's legacy random stream

    [numpy.random] is not part of the repository; its global generator is an
    interface here: a state type, [seed], and one state-passing function per
    distribution the program draws from. *)
Class RandomState : Type := {
  rng : Type;
  seed : Z -> rng;
  normal : float -> float -> rng -> float * rng;
  exponential : float -> rng -> float * rng;
  lognormal : float -> float -> rng -> float * rng;
  poisson : float -> rng -> Z * rng;
  binomial : Z -> float -> rng -> Z * rng;
  choice : list string -> list float -> rng -> string * rng;
  randint : Z -> Z -> rng -> Z * rng
}.

(** What the program relies on about the draws: at the parameters it uses,
    the continuous draws are finite, a Poisson count is not negative, and a
    one-trial binomial is 0 or 1. *)
Record numpy_laws (RS : RandomState) : Prop := {
  normal_finite : forall r, finite (fst (normal 35 12 r)) = true;
  exponential_finite : forall scale r,
    In scale [24; 5; 2; 18]%float -> finite (fst (exponential scale r)) = true;
  lognormal_finite : forall r, finite (fst (lognormal 6 1 r)) = true;
  poisson_nonneg : forall lam r, 0 <= fst (poisson lam r);
  bernoulli_range : forall p r, fst (binomial 1 p r) = 0 \/ fst (binomial 1 p r) = 1
}.

(** ** Tables *)

Record CustomerProfile : Type := {
  customer_id : string;
  age : Z;
  city : string;
  account_length_months : Z;
  contract_type : string;
  monthly_minutes : Z;
  monthly_data_gb : float;
  monthly_sms : Z;
  monthly_charge : float;
  late_payments : Z;
  international_calls : Z;
  customer_service_calls : Z;
  device_age_months : Z;
  churned : Z;
  is_fraud : Z
}.

(** A [datetime] is a count of microseconds; [timedelta(days=d)] is
    [d * day] of them. *)
Definition day : Z := 86400000000.

Record Transaction : Type := {
  t_customer_id : string;
  transaction_id : string;
  amount : float;
  transaction_type : string;
  timestamp : Z;
  t_is_fraud : Z
}.

(** The local variables of the loop body of [generate_telecom_customer_data]
    once the attributes have been sampled (lines 18-56). *)
Record Attributes : Type := {
  a_age : Z;
  a_account_length : Z;
  a_monthly_minutes : Z;
  a_monthly_data_gb : float;
  a_monthly_sms : Z;
  a_monthly_charge : float;
  a_late_payments : Z;
  a_international_calls : Z;
  a_customer_service_calls : Z;
  a_contract_type : string;
  a_device_age_months : Z
}.

Definition ghana_cities : list string :=
  ["Accra"; "Kumasi"; "Tamale"; "Sekondi-Takoradi"; "Cape Coast";
   "Tema"; "Obuasi"; "Koforidua"; "Sunyani"; "Ho"]%string.

Definition transaction_types : list string :=
  ["Voice_Call"; "Data_Usage"; "SMS"; "International"; "Premium_Service"]%string.

(** ** The risk models (lines 60-72 and 77-83) *)

Definition churn_probability (a : Attributes) : float :=
  let churn_probability := 0.05%float in
  let churn_probability :=
    if a_late_payments a >? 2 then (churn_probability + 0.3)%float
    else churn_probability in
  let churn_probability :=
    if a_customer_service_calls a >? 3 then (churn_probability + 0.2)%float
    else churn_probability in
  let churn_probability :=
    if (80 <? a_monthly_charge a)%float then (churn_probability + 0.15)%float
    else churn_probability in
  let churn_probability :=
    if a_account_length a <? 3 then (churn_probability + 0.25)%float
    else churn_probability in
  let churn_probability :=
    if (a_age a <? 25) || (a_age a >? 65) then (churn_probability + 0.1)%float
    else churn_probability in
  churn_probability.

Definition fraud_probability (a : Attributes) : float :=
  let fraud_probability := 0.02%float in
  let fraud_probability :=
    if a_international_calls a >? 10 then (fraud_probability + 0.1)%float
    else fraud_probability in
  let fraud_probability :=
    if (200 <? a_monthly_charge a)%float then (fraud_probability + 0.15)%float
    else fraud_probability in
  let fraud_probability :=
    if a_account_length a <? 1 then (fraud_probability + 0.2)%float
    else fraud_probability in
  fraud_probability.

Section Generator.

Context {RS : RandomState}.

(** ** The world a run reads and writes

    The random stream is global and mutable; [datetime.now()] reads a clock
    the program does not control: [clock w k] is the reading the [k]-th
    coming call returns. *)
Record World : Type := {
  rng_st : rng;
  clock : nat -> Z
}.

(** A computation reads and updates the world, or raises. *)
Definition M (A : Type) : Type := World -> option (A * World).

Definition ret {A} (a : A) : M A := fun w => Some (a, w).

Definition bind {A B} (c : M A) (k : A -> M B) : M B :=
  fun w => match c w with
           | Some (a, w') => k a w'
           | None => None
           end.

Notation "x <- c ;; k" := (bind c (fun x => k))
  (at level 61, c at next level, right associativity).
Notation "c ;;; k" := (bind c (fun _ => k))
  (at level 61, right associativity).

(** A draw from the global stream. *)
Definition draw {A} (d : rng -> A * rng) : M A :=
  fun w => let (a, r) := d (rng_st w) in
           Some (a, {| rng_st := r; clock := clock w |}).

(** [np.random.seed(k)] replaces the stream, whatever it was. *)
Definition np_random_seed (k : Z) : M unit :=
  fun w => Some (tt, {| rng_st := seed k; clock := clock w |}).

(** [datetime.now()] consumes one clock reading. *)
Definition datetime_now : M Z :=
  fun w => Some (clock w O,
                 {| rng_st := rng_st w; clock := fun k => clock w (S k) |}).

(** An expression that may raise. *)
Definition try {A} (o : option A) : M A :=
  fun w => match o with
           | Some a => Some (a, w)
           | None => None
           end.

(** ** [generate_telecom_customer_data] *)

(** Lines 20-56: the attribute draws, in program order. *)
Definition sample_attributes : M Attributes :=
  age <- draw (normal 35 12) ;;
  age <- try (py_int age) ;;
  let age := Z.max 18 (Z.min 80 age) in
  account_length <- draw (exponential 24) ;;
  account_length <- try (py_int account_length) ;;
  let account_length := Z.max 1 (Z.min 120 account_length) in
  monthly_minutes <- draw (lognormal 6 1) ;;
  monthly_minutes <- try (py_int monthly_minutes) ;;
  let monthly_minutes := Z.max 0 monthly_minutes in
  monthly_data_gb <- draw (exponential 5) ;;
  let monthly_data_gb := py_round2 (py_max 0.1 monthly_data_gb) in
  monthly_sms <- draw (poisson 50) ;;
  let monthly_charge :=
    (20 + (py_float monthly_minutes * 0.05) + (monthly_data_gb * 2)
     + (py_float monthly_sms * 0.1))%float in
  let monthly_charge := py_round2 monthly_charge in
  late_payments <- draw (poisson 0.5) ;;
  late_payments <-
    (if account_length <? 6 then draw (poisson 0.2) else ret late_payments) ;;
  international_calls <- draw (exponential 2) ;;
  international_calls <- try (py_int international_calls) ;;
  let international_calls := Z.max 0 international_calls in
  customer_service_calls <- draw (poisson 1) ;;
  contract_type <- draw (choice ["Prepaid"; "Postpaid"]%string [0.6; 0.4]%float) ;;
  device_age_months <- draw (exponential 18) ;;
  device_age_months <- try (py_int device_age_months) ;;
  let device_age_months := Z.max 1 (Z.min 60 device_age_months) in
  ret {| a_age := age;
         a_account_length := account_length;
         a_monthly_minutes := monthly_minutes;
         a_monthly_data_gb := monthly_data_gb;
         a_monthly_sms := monthly_sms;
         a_monthly_charge := monthly_charge;
         a_late_payments := late_payments;
         a_international_calls := international_calls;
         a_customer_service_calls := customer_service_calls;
         a_contract_type := contract_type;
         a_device_age_months := device_age_months |}.

(** Lines 18-108: one pass of the loop body, for index [i]. *)
Definition customer_row (i : Z) : M CustomerProfile :=
  let customer_id := ("CUST_" ++ zero_padded 6 (i + 1))%string in
  a <- sample_attributes ;;
  churned <- draw (binomial 1 (py_min (churn_probability a) 0.8)) ;;
  is_fraud <- draw (binomial 1 (py_min (fraud_probability a) 0.3)) ;;
  city <- draw (choice ghana_cities
                  [0.3; 0.2; 0.1; 0.08; 0.08; 0.07; 0.05; 0.04; 0.04; 0.04]%float) ;;
  ret {| customer_id := customer_id;
         age := a_age a;
         city := city;
         account_length_months := a_account_length a;
         contract_type := a_contract_type a;
         monthly_minutes := a_monthly_minutes a;
         monthly_data_gb := a_monthly_data_gb a;
         monthly_sms := a_monthly_sms a;
         monthly_charge := a_monthly_charge a;
         late_payments := a_late_payments a;
         international_calls := a_international_calls a;
         customer_service_calls := a_customer_service_calls a;
         device_age_months := a_device_age_months a;
         churned := churned;
         is_fraud := is_fraud |}.

(** [for i in range(...)]: [n] passes are left, the next index is [i], and
    [data] holds the rows appended so far. *)
Fixpoint customer_loop (n : nat) (i : Z) (data : list CustomerProfile)
  : M (list CustomerProfile) :=
  match n with
  | O => ret data
  | S n' =>
      customer_data <- customer_row i ;;
      customer_loop n' (i + 1) (data ++ [customer_data])
  end.

(** An argument left out takes its default. *)
Definition arg {A} (default : A) (given : option A) : A :=
  match given with
  | Some a => a
  | None => default
  end.

Definition generate_telecom_customer_data (num_customers : option Z)
  : M (list CustomerProfile) :=
  let num_customers := arg 10000 num_customers in
  np_random_seed 42 ;;;
  customer_loop (Z.to_nat num_customers) 0 [].

(** ** [generate_transaction_data] *)

(** Lines 124-156: one pass of the inner loop; [transactions] is the list
    built so far. *)
Definition transaction_pass (customer : CustomerProfile)
  (transactions : list Transaction) : M (list Transaction) :=
  amount <-
    (if truthy (is_fraud customer) then draw (lognormal 4 1.5)
     else draw (lognormal 2 0.8)) ;;
  let amount := py_max 1 (py_round2 amount) in
  days_ago <- draw (randint 0 90) ;;
  now <- datetime_now ;;
  let transaction_time := now - days_ago * day in
  transaction_type <-
    (if truthy (is_fraud customer)
     then draw (choice transaction_types [0.2; 0.2; 0.1; 0.3; 0.2]%float)
     else draw (choice transaction_types [0.4; 0.3; 0.2; 0.05; 0.05]%float)) ;;
  let transaction :=
    {| t_customer_id := customer_id customer;
       transaction_id :=
         ("TXN_" ++ zero_padded 8 (Z.of_nat (List.length transactions) + 1))%string;
       amount := amount;
       transaction_type := transaction_type;
       timestamp := transaction_time;
       t_is_fraud := is_fraud customer |} in
  ret (transactions ++ [transaction]).

(** [for _ in range(num_transactions)] *)
Fixpoint transaction_loop (n : nat) (customer : CustomerProfile)
  (transactions : list Transaction) : M (list Transaction) :=
  match n with
  | O => ret transactions
  | S n' =>
      transactions <- transaction_pass customer transactions ;;
      transaction_loop n' customer transactions
  end.

(** [for _, customer in customer_df.iterrows()] *)
Fixpoint per_customer_loop (transactions_per_customer : float)
  (rows : list CustomerProfile) (transactions : list Transaction)
  : M (list Transaction) :=
  match rows with
  | [] => ret transactions
  | customer :: rows' =>
      num_transactions <- draw (poisson transactions_per_customer) ;;
      transactions <-
        transaction_loop (Z.to_nat num_transactions) customer transactions ;;
      per_customer_loop transactions_per_customer rows' transactions
  end.

Definition generate_transaction_data (customer_df : list CustomerProfile)
  (transactions_per_customer : option float) : M (list Transaction) :=
  let transactions_per_customer := arg 50%float transactions_per_customer in
  per_customer_loop transactions_per_customer customer_df [].

(** The two stages in sequence, both arguments supplied. *)
Definition pipeline (num_customers : Z) (transactions_per_customer : float)
  : M (list CustomerProfile * list Transaction) :=
  customer_data <- generate_telecom_customer_data (Some num_customers) ;;
  transaction_data <-
    generate_transaction_data customer_data (Some transactions_per_customer) ;;
  ret (customer_data, transaction_data).

(** Lines 162-165: the script's own calls. *)
Definition script : M (list CustomerProfile * list Transaction) :=
  pipeline 10000 30.

(** ** Comparing two runs *)

(** The rows a pass of the loop body can return. *)
Definition row_generated (c : CustomerProfile) : Prop :=
  exists i w w', customer_row i w = Some (c, w').

(** Two worlds with the same stream state, and clocks whose readings are
    related by [T] one by one. *)
Definition same_stream (T : Z -> Z -> Prop) (w1 w2 : World) : Prop :=
  rng_st w1 = rng_st w2 /\ forall k, T (clock w1 k) (clock w2 k).

(** Two computations agree when, from such worlds, both raise or both return,
    with results related by [R], in such worlds again. *)
Definition agree {A} (T : Z -> Z -> Prop) (R : A -> A -> Prop)
  (c1 c2 : M A) : Prop :=
  forall w1 w2, same_stream T w1 w2 ->
    match c1 w1, c2 w2 with
    | Some (a1, v1), Some (a2, v2) => R a1 a2 /\ same_stream T v1 v2
    | None, None => True
    | _, _ => False
    end.

(** What a run returned, the world left aside. *)
Definition table_of {A} (o : option (A * World)) : option A :=
  option_map fst o.

(** A computation that never raises, and returns values in [P]. *)
Definition returns {A} (P : A -> Prop) (c : M A) : Prop :=
  forall w, exists a v, c w = Some (a, v) /\ P a.

(** A transaction that copies the id and the fraud label of a row of
    [customer_df]. *)
Definition refers_to (customer_df : list CustomerProfile) (t : Transaction)
  : Prop :=
  exists c, In c customer_df /\
            t_customer_id t = customer_id c /\ t_is_fraud t = is_fraud c.

End Generator.

(** Transactions that agree on every field, their timestamps up to [T]. *)
Definition same_transaction (T : Z -> Z -> Prop) (t1 t2 : Transaction) : Prop :=
  t_customer_id t1 = t_customer_id t2 /\
  transaction_id t1 = transaction_id t2 /\
  amount t1 = amount t2 /\
  transaction_type t1 = transaction_type t2 /\
  t_is_fraud t1 = t_is_fraud t2 /\
  T (timestamp t1) (timestamp t2).

Definition without_timestamp (t : Transaction) : Transaction :=
  {| t_customer_id := t_customer_id t;
     transaction_id := transaction_id t;
     amount := amount t;
     transaction_type := transaction_type t;
     timestamp := 0;
     t_is_fraud := t_is_fraud t |}.

(** Both tables of a run with the timestamps blanked. *)
Definition without_timestamps
  (tables : list CustomerProfile * list Transaction)
  : list CustomerProfile * list Transaction :=
  (fst tables, map without_timestamp (snd tables)).

(** ** The risk models as the specification words them

    A base rate plus the increments whose condition holds on the record,
    capped. *)

Definition increment (condition : bool) (by_ : float) : float :=
  if condition then by_ else 0%float.

Definition churn_sum (c : CustomerProfile) : float :=
  (0.05
   + increment (late_payments c >? 2)%Z 0.3
   + increment (customer_service_calls c >? 3)%Z 0.2
   + increment (80 <? monthly_charge c) 0.15
   + increment (account_length_months c <? 3)%Z 0.25
   + increment ((age c <? 25)%Z || (age c >? 65)%Z) 0.1)%float.

Definition churn_parameter (c : CustomerProfile) : float :=
  py_min (churn_sum c) 0.8.

Definition fraud_sum (c : CustomerProfile) : float :=
  (0.02
   + increment (international_calls c >? 10)%Z 0.1
   + increment (200 <? monthly_charge c) 0.15
   + increment (account_length_months c <? 1)%Z 0.2)%float.

Definition fraud_parameter (c : CustomerProfile) : float :=
  py_min (fraud_sum c) 0.3.

(** The billing formula of the specification. *)
Definition billing (c : CustomerProfile) : float :=
  py_round2 (20 + 0.05 * py_float (monthly_minutes c) + 2 * monthly_data_gb c
             + 0.1 * py_float (monthly_sms c))%float.

(** The sampled attributes a row records. *)
Definition attributes_of (c : CustomerProfile) : Attributes :=
  {| a_age := age c;
     a_account_length := account_length_months c;
     a_monthly_minutes := monthly_minutes c;
     a_monthly_data_gb := monthly_data_gb c;
     a_monthly_sms := monthly_sms c;
     a_monthly_charge := monthly_charge c;
     a_late_payments := late_payments c;
     a_international_calls := international_calls c;
     a_customer_service_calls := customer_service_calls c;
     a_contract_type := contract_type c;
     a_device_age_months := device_age_months c |}.

(** The ranges of the data model. *)
Definition in_ranges (c : CustomerProfile) : Prop :=
  18 <= age c <= 80 /\
  1 <= account_length_months c <= 120 /\
  1 <= device_age_months c <= 60 /\
  (0.1 <=? monthly_data_gb c)%float = true /\
  0 <= monthly_minutes c /\ 0 <= monthly_sms c /\
  0 <= international_calls c /\ 0 <= customer_service_calls c /\
  0 <= late_payments c /\
  (churned c = 0 \/ churned c = 1) /\ (is_fraud c = 0 \/ is_fraud c = 1).

(** ** Reading the tables

    What the identifier columns hold, how an identifier is read back, and
    what one pass of the transaction loop leaves in a row. *)

(** [int(s)] on a string of decimal digits. *)
Definition int_of_digits (s : string) : option Z :=
  option_map (fun d => Z.of_N (N.of_uint d)) (NilZero.uint_of_string s).

(** The identifiers of the first [n] customers, and of the first [n]
    transactions. *)
Definition customer_ids (n : nat) : list string :=
  map (fun k => ("CUST_" ++ zero_padded 6 (Z.of_nat k + 1))%string) (seq 0 n).

Definition transaction_ids (n : nat) : list string :=
  map (fun k => ("TXN_" ++ zero_padded 8 (Z.of_nat k + 1))%string) (seq 0 n).

(** Two more facts about NumPy's draws: [choice] returns an element of the
    list it is given, and [randint(low, high)] an integer of [low, high). *)
Definition choice_law (RS : RandomState) : Prop :=
  forall l p r, l <> [] -> In (fst (choice l p r)) l.


(** The row the inner loop appends for [customer] when [k] rows are already
    in the table and the clock reads [now] (lines 124-154). *)
Definition made_by {RS : RandomState} (customer : CustomerProfile) (k : nat)
  (now : Z) (t : Transaction) : Prop :=
  t_customer_id t = customer_id customer /\
  t_is_fraud t = is_fraud customer /\
  transaction_id t = ("TXN_" ++ zero_padded 8 (Z.of_nat k + 1))%string /\
  (exists r, timestamp t = now - fst (randint 0 90 r) * day) /\
  (exists r,
     amount t =
     py_max 1 (py_round2 (fst ((if truthy (is_fraud customer)
                               then lognormal 4 1.5
                               else lognormal 2 0.8) r)))) /\
  (exists r,
     transaction_type t =
     fst ((if truthy (is_fraud customer)
           then choice transaction_types [0.2; 0.2; 0.1; 0.3; 0.2]%float
           else choice transaction_types [0.4; 0.3; 0.2; 0.05; 0.05]%float) r)).

(** The customer and fraud label a transaction carries. *)
Definition owner (t : Transaction) : string * Z :=
  (t_customer_id t, t_is_fraud t).

(** The owners of the transactions of a table whose rows get [counts]
    transactions each, in the order of the rows. *)
Definition owners_in_order (rows : list CustomerProfile) (counts : list nat)
  : list (string * Z) :=
  flat_map (fun cn => repeat (customer_id (fst cn), is_fraud (fst cn)) (snd cn))
    (combine rows counts).

(** ** A small concrete stream

    A linear congruential generator over [Z] with table-driven draws: enough
    to run both generators on concrete inputs. *)
Module Toy.

Definition step (s : Z) : Z := (s * 1103515245 + 12345) mod 2147483648.

Definition bits (s : Z) : Z := step s / 65536.

Definition pick {A} (l : list A) (d : A) (s : Z) : A :=
  nth (Z.to_nat (bits s mod Z.of_nat (List.length l))) l d.

Definition standard_normals : list float :=
  [-1.5; -0.4; 0; 0.3; 0.9; 1.7; -0.9; 2.8; -2.2; 0.1; 3.1]%float.

Definition unit_exponentials : list float :=
  [0.02; 0.3; 1.1; 2.7; 0.6; 0.05; 5.4; 0.9; 0.01; 1.6; 0.4; 3.3; 0.2]%float.

Definition unit_lognormals : list float :=
  [0.22; 0.67; 1; 1.35; 2.46; 5.47; 0.41; 16.4; 0.11]%float.

Definition toy_normal (mu sigma : float) (s : Z) : float * Z :=
  ((mu + sigma * pick standard_normals 0 s)%float, step s).

Definition toy_exponential (scale : float) (s : Z) : float * Z :=
  ((scale * pick unit_exponentials 1 s)%float, step s).

Definition toy_lognormal (mu sigma : float) (s : Z) : float * Z :=
  (((mu * mu * mu + 1) * sigma * pick unit_lognormals 1 s)%float, step s).

Definition toy_poisson (lam : float) (s : Z) : Z * Z :=
  (Z.max 0 (arg 0 (py_int lam)) / 10 + bits s mod 4, step s).

Definition toy_binomial (n : Z) (p : float) (s : Z) : Z * Z :=
  (if (py_float (bits s mod 100) <? p * 100)%float then n else 0, step s).

Definition toy_choice (l : list string) (p : list float) (s : Z) : string * Z :=
  (pick l EmptyString s, step s).

Definition toy_randint (low high : Z) (s : Z) : Z * Z :=
  (low + bits s mod (high - low), step s).

#[export] Instance stream : RandomState := {|
  rng := Z;
  seed := fun k => k mod 2147483648;
  normal := toy_normal;
  exponential := toy_exponential;
  lognormal := toy_lognormal;
  poisson := toy_poisson;
  binomial := toy_binomial;
  choice := toy_choice;
  randint := toy_randint
|}.

(** A world to run in. *)
Definition world1 : World :=
  {| rng_st := 7; clock := fun k => Z.of_nat k + 1700000000000000 |}.

(** The same stream state under a later clock. *)
Definition world2 : World :=
  {| rng_st := 7; clock := fun k => Z.of_nat k * 5 + 1800000000000000 |}.

(** Another stream state under the clock of [world1]. *)
Definition world3 : World :=
  {| rng_st := 2024; clock := clock world1 |}.

(** A customer table of one row, written by hand. *)
Definition one_customer : list CustomerProfile :=
  [ {| customer_id := "CUST_000001";
       age := 41;
       city := "Tamale";
       account_length_months := 17;
       contract_type := "Prepaid";
       monthly_minutes := 350;
       monthly_data_gb := 3.25;
       monthly_sms := 48;
       monthly_charge := 48.8;
       late_payments := 0;
       international_calls := 12;
       customer_service_calls := 1;
       device_age_months := 9;
       churned := 0;
       is_fraud := 1 |} ].

(** A run of each stage from [world1]: three customers, then their
    transactions at a mean of 30. *)
Definition customers : list CustomerProfile :=
  Eval vm_compute in
    match generate_telecom_customer_data (Some 3) world1 with
    | Some (rows, _) => rows
    | None => []
    end.

Definition after_customers : World :=
    match generate_telecom_customer_data (Some 3) world1 with
    | Some (_, w) => w
    | None => world1
    end.

Definition transactions : list Transaction :=
  Eval vm_compute in
    match generate_transaction_data customers (Some 30%float) after_customers with
    | Some (rows, _) => rows
    | None => []
    end.

Definition after_transactions : World :=
    match generate_transaction_data customers (Some 30%float) after_customers with
    | Some (_, w) => w
    | None => world1
    end.

End Toy.

(** * Facts about the numeric layer *)

(** ** The built-ins on sample values *)

Example py_round_examples :
  py_round2 2.675 = 2.67%float /\ py_round2 0.125 = 0.12%float /\
  py_round2 0.375 = 0.38%float /\ py_round2 (-0.001) = neg_zero /\
  py_round2 1234.5678 = 1234.57%float /\ py_round2 7 = 7%float /\
  py_round2 0.1 = 0.1%float /\ py_round2 infinity = infinity /\
  py_round2 2251799813685248.5 = 2251799813685248.5%float /\
  py_round2 45035996273704.96875 = 45035996273704.97%float.
Proof. repeat split; vm_compute; reflexivity. Qed.

Example py_int_examples :
  py_int 34.99 = Some 34 /\ py_int (-3.7) = Some (-3) /\ py_int 0.5 = Some 0 /\
  py_int 1e20 = Some 100000000000000000000 /\ py_int nan = None /\
  py_int infinity = None.
Proof. repeat split; vm_compute; reflexivity. Qed.

Example py_float_examples :
  py_float 403 = 403%float /\ py_float 0 = 0%float /\ py_float (-7) = (-7)%float /\
  py_float 9007199254740993 = 9007199254740992%float.
Proof. repeat split; vm_compute; reflexivity. Qed.

Example zero_padded_examples :
  zero_padded 6 1 = "000001"%string /\ zero_padded 6 10000 = "010000"%string /\
  zero_padded 6 1234567 = "1234567"%string /\ zero_padded 8 42 = "00000042"%string.
Proof. repeat split; vm_compute; reflexivity. Qed.

(** ** Rounding to two decimals never goes below 0.1 *)

Lemma digits2_size p : digits2_pos p = Pos.size p.
Proof. induction p; simpl; congruence. Qed.

Lemma digits2_log2 p : Zpos (digits2_pos p) = Z.log2 (Zpos p) + 1.
Proof.
  rewrite digits2_size. destruct p; simpl; lia.
Qed.

Lemma digits2_bounds p :
  2 ^ (Zpos (digits2_pos p) - 1) <= Zpos p < 2 ^ Zpos (digits2_pos p).
Proof.
  rewrite digits2_log2.
  pose proof (Z.log2_spec (Zpos p) ltac:(lia)) as H.
  replace (Z.log2 (Z.pos p) + 1 - 1) with (Z.log2 (Zpos p)) by lia.
  replace (Z.log2 (Z.pos p) + 1) with (Z.succ (Z.log2 (Zpos p))) by lia.
  exact H.
Qed.

Lemma digits2_unique p k :
  2 ^ (k - 1) <= Zpos p < 2 ^ k -> Zpos (digits2_pos p) = k.
Proof.
  intros H. rewrite digits2_log2.
  assert (0 <= k - 1).
  { destruct (Z.le_gt_cases 0 (k - 1)) as [|Hneg]; [assumption|].
    destruct (Z.le_gt_cases 0 k) as [Hk|Hk].
    - assert (k = 0) by lia. subst k. simpl in H. lia.
    - rewrite (Z.pow_neg_r 2 k) in H by lia. lia. }
  rewrite (Z.log2_unique (Zpos p) (k - 1)); try lia.
  replace (Z.succ (k - 1)) with k by lia. exact H.
Qed.

Ltac leb_true :=
  match goal with
  | |- context [?a <=? ?b] =>
      replace (a <=? b) with true by (symmetry; apply Z.leb_le; lia)
  end.

(** Second phase of [binary_round_aux]: a rounded mantissa of 53 bits, or
    [2 ^ 53] after a carry. *)
Lemma renormalize q e :
  2 ^ 52 <= q <= 2 ^ 53 -> -1074 <= e <= 900 ->
  exists m e',
    (let '(mrs, e2) := shr_fexp prec emax q e loc_Exact in
     match shr_m mrs with
     | Z0 => S754_zero false
     | Zpos m => if e2 <=? emax - prec then S754_finite false m e2
                 else S754_infinity false
     | Zneg _ => S754_nan
     end) = S754_finite false m e' /\
    e <= e' <= e + 1 /\ 2 ^ 52 <= Zpos m < 2 ^ 53.
Proof.
  intros Hq He.
  destruct (Z.eq_dec q (2 ^ 53)) as [->|Hne].
  - exists (4503599627370496%positive), (e + 1).
    unfold shr_fexp, fexp, emin, prec, emax.
    change (Zdigits2 (2 ^ 53)) with 54.
    replace (Z.max (54 + e - 53) (3 - 1024 - 53) - e) with 1 by lia.
    cbn -[Z.add Z.leb].
    leb_true.
    repeat split; try lia.
  - destruct q as [|p|p]; try lia.
    assert (Hd : Zpos (digits2_pos p) = 53) by (apply digits2_unique; lia).
    exists p, e.
    unfold shr_fexp, fexp, emin, prec, emax.
    cbn [Zdigits2]. rewrite Hd.
    replace (Z.max (53 + e - 53) (3 - 1024 - 53) - e) with 0 by lia.
    cbn -[Z.leb Z.sub].
    leb_true.
    repeat split; lia.
Qed.

Lemma round_nearest_even_bounds m l :
  m <= round_nearest_even m l <= m + 1.
Proof.
  destruct l as [|[]]; simpl; try lia.
  destruct (Z.even m); lia.
Qed.

Lemma shr_m_of_loc m l : shr_m (shr_record_of_loc m l) = m.
Proof. destruct l as [|[]]; reflexivity. Qed.

Lemma shr_m_shr_1 mrs : 0 <= shr_m mrs -> shr_m (shr_1 mrs) = shr_m mrs / 2.
Proof.
  destruct mrs as [m r s]. simpl. intros Hm.
  rewrite <- Z.div2_div.
  destruct m as [|[p|p|]|p]; try reflexivity; lia.
Qed.

(** [binary_round_aux] on a mantissa of 53 or 54 bits: the result is a normal
    number whose exponent is at most two above the one given. *)
Lemma binary_round_aux_normal q e l :
  2 ^ 52 <= q < 2 ^ 54 -> -1074 <= e <= 800 ->
  exists m e',
    binary_round_aux prec emax false q e l = S754_finite false m e' /\
    e <= e' <= e + 2 /\ 2 ^ 52 <= Zpos m < 2 ^ 53.
Proof.
  intros Hq He. unfold binary_round_aux.
  destruct q as [|p|p]; try lia.
  destruct (Z_lt_le_dec (Zpos p) (2 ^ 53)) as [Hlt|Hge].
  - assert (Hd : Zpos (digits2_pos p) = 53) by (apply digits2_unique; lia).
    unfold shr_fexp at 1, fexp, emin, prec, emax.
    cbn [Zdigits2]. rewrite Hd.
    replace (Z.max (53 + e - 53) (3 - 1024 - 53) - e) with 0 by lia.
    cbn [shr]. rewrite shr_m_of_loc.
    pose proof (round_nearest_even_bounds (Zpos p)
                  (loc_of_shr_record (shr_record_of_loc (Zpos p) l))) as Hr.
    destruct (renormalize (round_nearest_even (Zpos p)
                  (loc_of_shr_record (shr_record_of_loc (Zpos p) l))) e
                ltac:(lia) ltac:(lia))
      as (m & e' & Heq & He' & Hm).
    exists m, e'. split; [exact Heq|lia].
  - assert (Hd : Zpos (digits2_pos p) = 54) by (apply digits2_unique; lia).
    unfold shr_fexp at 1, fexp, emin, prec, emax.
    cbn [Zdigits2]. rewrite Hd.
    replace (Z.max (54 + e - 53) (3 - 1024 - 53) - e) with 1 by lia.
    cbn [shr iter_pos].
    set (mrs := shr_1 (shr_record_of_loc (Zpos p) l)).
    assert (Hh : shr_m mrs = Zpos p / 2).
    { unfold mrs. rewrite shr_m_shr_1; rewrite shr_m_of_loc; lia. }
    assert (2 ^ 52 <= shr_m mrs < 2 ^ 53).
    { rewrite Hh. split.
      - apply Z.div_le_lower_bound; lia.
      - apply Z.div_lt_upper_bound; lia. }
    pose proof (round_nearest_even_bounds (shr_m mrs) (loc_of_shr_record mrs)) as Hr.
    destruct (renormalize (round_nearest_even (shr_m mrs) (loc_of_shr_record mrs))
                (e + 1) ltac:(lia) ltac:(lia))
      as (m & e' & Heq & He' & Hm).
    exists m, e'. split; [exact Heq|lia].
Qed.

Lemma digits2_range n :
  16 <= Zpos n < 2 ^ 60 -> 5 <= Zpos (digits2_pos n) <= 60.
Proof.
  intros Hn. pose proof (digits2_bounds n) as Hd.
  set (d := Zpos (digits2_pos n)) in *.
  split.
  - destruct (Z_lt_le_dec d 5) as [Hlt|]; [|assumption].
    assert (2 ^ d <= 2 ^ 4) by (apply Z.pow_le_mono_r; lia).
    change (2 ^ 4) with 16 in *. lia.
  - destruct (Z_lt_le_dec 60 d) as [Hlt|]; [|assumption].
    assert (2 ^ 60 <= 2 ^ (d - 1)) by (apply Z.pow_le_mono_r; lia).
    lia.
Qed.

(** Dividing an integer numerator of at least 16 by 100 gives a normal
    number with exponent above -56. *)
Lemma div_hundred_normal n :
  16 <= Zpos n < 2 ^ 60 ->
  exists m e',
    SF64div (S754_finite false n 0) (S754_finite false 100 0)
    = S754_finite false m e' /\
    -55 <= e' <= 2 /\ 2 ^ 52 <= Zpos m < 2 ^ 53.
Proof.
  intros Hn.
  pose proof (digits2_range n Hn) as Hr.
  pose proof (digits2_bounds n) as Hd.
  unfold SF64div, SFdiv, SFdiv_core_binary.
  cbn [Zdigits2 xorb]. change (digits2_pos 100) with 7%positive.
  set (d := Zpos (digits2_pos n)) in *.
  replace (Z.min (fexp prec emax (d + 0 - (7 + 0))) (0 - 0)) with (d - 60)
    by (unfold fexp, emin, prec, emax; lia).
  set (m' := match 0 - 0 - (d - 60) with
             | 0 => Zpos n
             | Zpos _ => Z.shiftl (Zpos n) (0 - 0 - (d - 60))
             | Zneg _ => 0
             end).
  assert (Hm' : m' = Zpos n * 2 ^ (60 - d)).
  { unfold m'. replace (0 - 0 - (d - 60)) with (60 - d) by lia.
    destruct (60 - d) eqn:Hs; try lia.
    rewrite Z.shiftl_mul_pow2 by lia. reflexivity. }
  assert (Hpow : 2 ^ (d - 1) * 2 ^ (60 - d) = 2 ^ 59).
  { rewrite <- Z.pow_add_r by lia. f_equal. lia. }
  assert (Hpow' : 2 ^ d * 2 ^ (60 - d) = 2 ^ 60).
  { rewrite <- Z.pow_add_r by lia. f_equal. lia. }
  assert (Hk : 0 < 2 ^ (60 - d)) by (apply Z.pow_pos_nonneg; lia).
  assert (Hb : 2 ^ 59 <= m' < 2 ^ 60).
  { rewrite Hm', <- Hpow, <- Hpow'. split.
    - apply Z.mul_le_mono_nonneg_r; lia.
    - apply Z.mul_lt_mono_pos_r; lia. }
  destruct (Z.div_eucl m' 100) as [q r] eqn:Hqr.
  assert (Hq : q = m' / 100) by (unfold Z.div; rewrite Hqr; reflexivity).
  assert (2 ^ 52 <= q < 2 ^ 54).
  { rewrite Hq. split.
    - apply Z.div_le_lower_bound; lia.
    - apply Z.div_lt_upper_bound; lia. }
  destruct (binary_round_aux_normal q (d - 60) (new_location 100 r)
              ltac:(assumption) ltac:(lia)) as (m & e' & Heq & He' & Hm).
  exists m, e'. split; [exact Heq|lia].
Qed.

Lemma tenth_repr : Prim2SF 0.1 = S754_finite false 7205759403792794 (-56).
Proof. vm_compute. reflexivity. Qed.

Lemma normal_valid m e :
  2 ^ 52 <= Zpos m < 2 ^ 53 -> -1074 <= e <= 971 ->
  valid_binary (S754_finite false m e) = true.
Proof.
  intros Hm He. unfold SpecFloat.valid_binary, bounded, canonical_mantissa.
  rewrite (digits2_unique m 53) by lia.
  unfold fexp, emin, prec, emax.
  apply andb_true_intro. split.
  - apply Z.eqb_eq. lia.
  - apply Z.leb_le. lia.
Qed.

Lemma of_hundredths_lower n :
  10 <= Zpos n < 2 ^ 60 -> (0.1 <=? of_hundredths false n)%float = true.
Proof.
  intros Hn.
  destruct (Z_lt_le_dec (Zpos n) 16) as [Hsmall|Hbig].
  - assert (Hcases : (n = 10 \/ n = 11 \/ n = 12 \/ n = 13 \/ n = 14 \/ n = 15)%positive)
      by lia.
    destruct Hcases as [->|[->|[->|[->|[->| ->]]]]]; vm_compute; reflexivity.
  - destruct (div_hundred_normal n ltac:(lia)) as (m & e' & Heq & He' & Hm).
    unfold of_hundredths. rewrite Heq.
    rewrite leb_spec, tenth_repr, Prim2SF_SF2Prim by (apply normal_valid; lia).
    unfold SFleb, SFcompare.
    replace (-56 ?= e') with Lt by (symmetry; apply Z.compare_lt_iff; lia).
    reflexivity.
Qed.

Lemma round_half_even_floor a b : a / b <= round_half_even a b <= a / b + 1.
Proof.
  unfold round_half_even.
  destruct (2 * (a mod b) ?= b); try lia.
  destruct (Z.even (a / b)); lia.
Qed.

(** What a valid finite float at least [0.1] looks like. *)
Lemma at_least_tenth s m e :
  valid_binary (S754_finite s m e) = true ->
  SFleb (S754_finite false 7205759403792794 (-56)) (S754_finite s m e) = true ->
  s = false /\ Zpos m < 2 ^ 53 /\
  (e = -56 /\ 7205759403792794 <= Zpos m \/ -56 < e /\ 2 ^ 52 <= Zpos m).
Proof.
  unfold SpecFloat.valid_binary, bounded, canonical_mantissa, SFleb, SFcompare.
  intros Hv Hle. apply andb_prop in Hv. destruct Hv as [Hc _].
  apply Z.eqb_eq in Hc. unfold fexp, emin, prec, emax in Hc.
  pose proof (digits2_bounds m) as Hd.
  set (d := Zpos (digits2_pos m)) in *.
  destruct s; [discriminate|]. split; [reflexivity|].
  assert (Hd53 : d <= 53) by lia.
  assert (2 ^ d <= 2 ^ 53) by (apply Z.pow_le_mono_r; lia).
  split; [lia|].
  destruct (-56 ?= e) eqn:Hcmp.
  - apply Z.compare_eq in Hcmp. left. split; [lia|].
    destruct (Pos.compare_cont Eq 7205759403792794 m) eqn:Hp; try discriminate.
    + apply Pos.compare_eq in Hp. lia.
    + change (Pos.compare_cont Eq 7205759403792794 m)
        with (Pos.compare 7205759403792794 m) in Hp.
      apply -> Pos.compare_lt_iff in Hp. lia.
  - apply -> Z.compare_lt_iff in Hcmp. right. split; [lia|].
    assert (d = 53) by lia.
    replace (d - 1) with 52 in Hd by lia. lia.
  - discriminate.
Qed.

Lemma py_round2_at_least_tenth x :
  (0.1 <=? x)%float = true -> (0.1 <=? py_round2 x)%float = true.
Proof.
  intros Hx. unfold py_round2.
  destruct (Prim2SF x) as [| | |s m e] eqn:Hrepr; try exact Hx.
  destruct (0 <=? e) eqn:He; [exact Hx|].
  apply Z.leb_gt in He.
  pose proof (Prim2SF_valid x) as Hv. rewrite Hrepr in Hv.
  rewrite leb_spec, tenth_repr, Hrepr in Hx.
  destruct (at_least_tenth s m e Hv Hx) as (-> & Hm & Hcases).
  pose proof (round_half_even_floor (100 * Zpos m) (2 ^ (- e))) as Hr.
  assert (Hpos : 0 < 2 ^ (- e)) by (apply Z.pow_pos_nonneg; lia).
  assert (Hlow : 10 <= 100 * Zpos m / 2 ^ (- e)).
  { apply Z.div_le_lower_bound; [assumption|].
    destruct Hcases as [[-> Hm0]|[He' Hm0]].
    - change (2 ^ (- -56)) with 72057594037927936. lia.
    - assert (2 ^ (- e) <= 2 ^ 55) by (apply Z.pow_le_mono_r; lia).
      change (2 ^ 52) with 4503599627370496 in Hm0.
      change (2 ^ 55) with 36028797018963968 in *. lia. }
  assert (Hhigh : 100 * Zpos m / 2 ^ (- e) + 1 < 2 ^ 60).
  { assert (100 * Zpos m / 2 ^ (- e) <= 100 * Zpos m / 2 ^ 1).
    { apply Z.div_le_compat_l; [lia|]. split; [lia|].
      apply Z.pow_le_mono_r; lia. }
    assert (100 * Zpos m / 2 ^ 1 < 2 ^ 59).
    { apply Z.div_lt_upper_bound; [lia|].
      change (2 ^ 53) with 9007199254740992 in Hm.
      change (2 ^ 59) with 576460752303423488. change (2 ^ 1) with 2. lia. }
    change (2 ^ 60) with 1152921504606846976.
    change (2 ^ 59) with 576460752303423488 in *. lia. }
  destruct (round_half_even (100 * Zpos m) (2 ^ (- e))) as [|n|n] eqn:Hn; try lia.
  apply of_hundredths_lower. lia.
Qed.

Lemma py_max_at_least a b : (a <=? a)%float = true -> (a <=? py_max a b)%float = true.
Proof.
  intros Ha. unfold py_max. destruct (a <? b)%float eqn:Hlt; [|exact Ha].
  rewrite ltb_spec in Hlt. rewrite leb_spec. unfold SFltb, SFleb in *.
  destruct (SFcompare (Prim2SF a) (Prim2SF b)) as [[]|]; try discriminate; reflexivity.
Qed.

(** ** Multiplication of floats commutes *)

Lemma SF64mul_comm x y : SF64mul x y = SF64mul y x.
Proof.
  unfold SF64mul, SFmul.
  destruct x as [sx|sx| |sx mx ex], y as [sy|sy| |sy my ey];
    try reflexivity; try (rewrite (xorb_comm sx sy); reflexivity).
  rewrite (xorb_comm sx sy), (Pos.mul_comm mx my), (Z.add_comm ex ey).
  reflexivity.
Qed.

Lemma float_mul_comm (x y : float) : (x * y)%float = (y * x)%float.
Proof.
  apply Prim2SF_inj. rewrite !mul_spec. apply SF64mul_comm.
Qed.

(** ** [int] is defined on finite floats *)

Lemma py_int_finite x : finite x = true -> exists n, py_int x = Some n.
Proof.
  unfold finite, py_int. destruct (Prim2SF x); try discriminate; eauto.
Qed.

(** * The risk models *)

(** The accumulated churn probability is the base rate plus the increments
    of the conditions that hold. *)
Lemma churn_probability_sum c :
  churn_probability (attributes_of c) = churn_sum c.
Proof.
  unfold churn_probability, churn_sum, increment, attributes_of.
  cbn [a_late_payments a_customer_service_calls a_monthly_charge
       a_account_length a_age].
  destruct (late_payments c >? 2), (customer_service_calls c >? 3),
    (80 <? monthly_charge c)%float, (account_length_months c <? 3),
    ((age c <? 25) || (age c >? 65)); reflexivity.
Qed.

Lemma fraud_probability_sum c :
  fraud_probability (attributes_of c) = fraud_sum c.
Proof.
  unfold fraud_probability, fraud_sum, increment, attributes_of.
  cbn [a_international_calls a_monthly_charge a_account_length].
  destruct (international_calls c >? 10), (200 <? monthly_charge c)%float,
    (account_length_months c <? 1); reflexivity.
Qed.

(** With a tenure of at least one month the third fraud increment is out of
    reach: the sum stays at or below 0.27 and the cap at 0.3 changes nothing. *)
Lemma fraud_sum_tenured c :
  1 <= account_length_months c ->
  fraud_sum c =
    (0.02 + increment (international_calls c >? 10) 0.1
     + increment (200 <? monthly_charge c) 0.15)%float /\
  (fraud_sum c <=? 0.27)%float = true /\
  fraud_parameter c = fraud_sum c.
Proof.
  intros Hlen. unfold fraud_parameter, fraud_sum, increment.
  replace (account_length_months c <? 1) with false
    by (symmetry; apply Z.ltb_ge; exact Hlen).
  destruct (international_calls c >? 10), (200 <? monthly_charge c)%float;
    repeat split; reflexivity.
Qed.

(** * Running the generators *)

Section Runs.

Context {RS : RandomState}.

(** ** Inversion of the monad's operations *)

Lemma bind_inv {A B} (c : M A) (k : A -> M B) w b w' :
  bind c k w = Some (b, w') ->
  exists a v, c w = Some (a, v) /\ k a v = Some (b, w').
Proof.
  unfold bind. destruct (c w) as [[a v]|]; [|discriminate].
  intros H. exists a, v. split; [reflexivity|exact H].
Qed.

Lemma bind_run {A B} (c : M A) (k : A -> M B) w :
  bind c k w = match c w with
               | Some (a, v) => k a v
               | None => None
               end.
Proof. reflexivity. Qed.

Lemma draw_inv {A} (d : rng -> A * rng) w a w' :
  draw d w = Some (a, w') ->
  a = fst (d (rng_st w)) /\
  w' = {| rng_st := snd (d (rng_st w)); clock := clock w |}.
Proof.
  unfold draw. destruct (d (rng_st w)) as [a0 r]. intros H.
  injection H as <- <-. split; reflexivity.
Qed.

Lemma try_inv {A} (o : option A) w a w' :
  try o w = Some (a, w') -> o = Some a /\ w' = w.
Proof.
  unfold try. destruct o; [|discriminate]. intros H.
  injection H as <- <-. split; reflexivity.
Qed.

Lemma ret_inv {A} (x : A) w a w' : ret x w = Some (a, w') -> a = x /\ w' = w.
Proof. unfold ret. intros H. injection H as <- <-. split; reflexivity. Qed.

Ltac run_inv H :=
  repeat first
    [ apply bind_inv in H; destruct H as (? & ? & ? & H)
    | progress cbv zeta in H ];
  repeat match goal with
    | E : draw _ _ = Some _ |- _ => apply draw_inv in E; destruct E as [? ?]
    | E : try _ _ = Some _ |- _ => apply try_inv in E; destruct E as [? ?]
    | E : ret _ _ = Some _ |- _ => apply ret_inv in E; destruct E as [? ?]
    end.

(** ** One row *)

(** What the attribute draws guarantee, whatever the stream returns. *)
Lemma sample_attributes_inv w a w' :
  sample_attributes w = Some (a, w') ->
  18 <= a_age a <= 80 /\
  1 <= a_account_length a <= 120 /\
  1 <= a_device_age_months a <= 60 /\
  0 <= a_monthly_minutes a /\
  0 <= a_international_calls a /\
  (0.1 <=? a_monthly_data_gb a)%float = true /\
  a_monthly_charge a =
    py_round2 (20 + (py_float (a_monthly_minutes a) * 0.05)
               + (a_monthly_data_gb a * 2)
               + (py_float (a_monthly_sms a) * 0.1))%float /\
  (exists lam r, a_monthly_sms a = fst (poisson lam r)) /\
  (exists lam r, a_late_payments a = fst (poisson lam r)) /\
  (exists lam r, a_customer_service_calls a = fst (poisson lam r)).
Proof.
  intros H. unfold sample_attributes in H. run_inv H.
  subst a. cbn [a_age a_account_length a_device_age_months a_monthly_minutes
                a_international_calls a_monthly_data_gb a_monthly_charge
                a_monthly_sms a_late_payments a_customer_service_calls].
  repeat match goal with |- _ /\ _ => split end; try lia.
  - apply py_round2_at_least_tenth, py_max_at_least. reflexivity.
  - reflexivity.
  - eauto.
  - match goal with
    | E : (if ?b then _ else _) _ = Some _ |- _ => destruct b
    end.
    + match goal with E : draw _ _ = Some _ |- _ => apply draw_inv in E; destruct E end.
      eauto.
    + match goal with E : ret _ _ = Some _ |- _ => apply ret_inv in E; destruct E end.
      subst. eauto.
  - eauto.
Qed.

(** A row records the sampled attributes, and its two labels are one
    binomial draw each: the churn draw from the stream as the attribute draws
    left it, the fraud draw from the stream as the churn draw left it. *)
Lemma customer_row_inv i w c w' :
  customer_row i w = Some (c, w') ->
  exists v,
    sample_attributes w = Some (attributes_of c, v) /\
    customer_id c = ("CUST_" ++ zero_padded 6 (i + 1))%string /\
    let churn_draw :=
      binomial 1 (py_min (churn_probability (attributes_of c)) 0.8) (rng_st v) in
    let fraud_draw :=
      binomial 1 (py_min (fraud_probability (attributes_of c)) 0.3)
        (snd churn_draw) in
    churned c = fst churn_draw /\ is_fraud c = fst fraud_draw.
Proof.
  intros H. unfold customer_row in H. run_inv H.
  match goal with E : sample_attributes _ = Some (?a, ?v) |- _ =>
    exists v; destruct a end.
  subst. cbn. repeat split; try reflexivity. assumption.
Qed.

(** ** The customer loop *)

Lemma customer_loop_inv n : forall i data w rows w',
  customer_loop n i data w = Some (rows, w') ->
  exists new, rows = data ++ new /\ List.length new = n /\
              Forall row_generated new.
Proof.
  induction n as [|n IH]; intros i data w rows w' H; cbn [customer_loop] in H.
  - apply ret_inv in H. destruct H as [-> _]. exists [].
    rewrite app_nil_r. repeat split. constructor.
  - apply bind_inv in H. destruct H as (c & v & Hrow & H).
    apply IH in H. destruct H as (new & -> & Hlen & Hall).
    exists (c :: new). rewrite <- app_assoc. repeat split.
    + cbn. lia.
    + constructor; [|exact Hall]. exists i, w, v. exact Hrow.
Qed.

Lemma generate_telecom_customer_data_inv num w customers w' :
  generate_telecom_customer_data num w = Some (customers, w') ->
  List.length customers = Z.to_nat (arg 10000 num) /\
  Forall row_generated customers.
Proof.
  unfold generate_telecom_customer_data. intros H.
  apply bind_inv in H. destruct H as (u & v & _ & H).
  apply customer_loop_inv in H. destruct H as (new & -> & Hlen & Hall).
  split; assumption.
Qed.

(** ** Agreement of two runs *)

Section Agreement.

Variable T : Z -> Z -> Prop.

Lemma agree_ret {A} (R : A -> A -> Prop) a1 a2 :
  R a1 a2 -> agree T R (ret a1) (ret a2).
Proof. intros HR w1 w2 Hw. cbn. split; assumption. Qed.

Lemma agree_bind {A B} (R : A -> A -> Prop) (S : B -> B -> Prop)
  (c1 c2 : M A) (k1 k2 : A -> M B) :
  agree T R c1 c2 ->
  (forall a1 a2, R a1 a2 -> agree T S (k1 a1) (k2 a2)) ->
  agree T S (bind c1 k1) (bind c2 k2).
Proof.
  intros Hc Hk w1 w2 Hw. unfold bind. specialize (Hc w1 w2 Hw).
  destruct (c1 w1) as [[a1 v1]|], (c2 w2) as [[a2 v2]|]; try contradiction.
  - destruct Hc as [HR Hv]. exact (Hk a1 a2 HR v1 v2 Hv).
  - exact I.
Qed.

Lemma agree_draw {A} (d : rng -> A * rng) : agree T eq (draw d) (draw d).
Proof.
  intros w1 w2 [Hr Hc]. unfold draw. rewrite Hr.
  destruct (d (rng_st w2)) as [a r]. split; [reflexivity|].
  split; [reflexivity|exact Hc].
Qed.

Lemma agree_try {A} (o : option A) : agree T eq (try o) (try o).
Proof.
  intros w1 w2 Hw. unfold try. destruct o; [|exact I].
  split; [reflexivity|exact Hw].
Qed.

Lemma agree_now : agree T T datetime_now datetime_now.
Proof.
  intros w1 w2 [Hr Hc]. unfold datetime_now. split; [apply Hc|].
  split; [exact Hr|]. intros k. apply Hc.
Qed.

Ltac agree_leaf :=
  first
    [ apply agree_draw
    | apply agree_try
    | apply agree_ret; reflexivity
    | match goal with
      | |- agree _ _ (if ?b then _ else _) _ => destruct b; agree_leaf
      end ].

Ltac agree_auto :=
  repeat first
    [ agree_leaf
    | eapply agree_bind; [agree_leaf|intros ? ? ->]
    | progress cbv zeta ].

Lemma agree_sample_attributes : agree T eq sample_attributes sample_attributes.
Proof. unfold sample_attributes. agree_auto. Qed.

Lemma agree_customer_row i : agree T eq (customer_row i) (customer_row i).
Proof.
  unfold customer_row. cbv zeta.
  eapply agree_bind; [apply agree_sample_attributes|intros ? ? ->].
  agree_auto.
Qed.

Lemma agree_customer_loop n : forall i data,
  agree T eq (customer_loop n i data) (customer_loop n i data).
Proof.
  induction n as [|n IH]; intros i data; cbn [customer_loop].
  - apply agree_ret. reflexivity.
  - eapply agree_bind; [apply agree_customer_row|intros ? ? ->]. apply IH.
Qed.

Lemma agree_generate_telecom_customer_data num w1 w2 :
  (forall k, T (clock w1 k) (clock w2 k)) ->
  match generate_telecom_customer_data num w1,
        generate_telecom_customer_data num w2 with
  | Some (c1, v1), Some (c2, v2) => c1 = c2 /\ same_stream T v1 v2
  | None, None => True
  | _, _ => False
  end.
Proof.
  intros Hc. unfold generate_telecom_customer_data, bind, np_random_seed.
  apply agree_customer_loop. split; [reflexivity|exact Hc].
Qed.

(** The transaction stage reads the clock: two runs agree on the timestamps
    as far as [T] is kept by subtracting a day offset. *)
Hypothesis T_shift : forall a b d, T a b -> T (a - d) (b - d).

Lemma agree_transaction_pass customer ts1 ts2 :
  Forall2 (same_transaction T) ts1 ts2 ->
  agree T (Forall2 (same_transaction T))
    (transaction_pass customer ts1) (transaction_pass customer ts2).
Proof.
  intros Hts. unfold transaction_pass.
  eapply agree_bind; [agree_leaf|intros ? ? ->]. cbv zeta.
  eapply agree_bind; [agree_leaf|intros ? ? ->].
  eapply agree_bind; [apply agree_now|intros now1 now2 Hnow].
  eapply agree_bind; [agree_leaf|intros ? ? ->].
  apply agree_ret. apply Forall2_app; [exact Hts|].
  constructor; [|constructor].
  unfold same_transaction. cbn.
  rewrite (Forall2_length Hts). repeat split. apply T_shift, Hnow.
Qed.

Lemma agree_transaction_loop n customer : forall ts1 ts2,
  Forall2 (same_transaction T) ts1 ts2 ->
  agree T (Forall2 (same_transaction T))
    (transaction_loop n customer ts1) (transaction_loop n customer ts2).
Proof.
  induction n as [|n IH]; intros ts1 ts2 Hts; cbn [transaction_loop].
  - apply agree_ret. exact Hts.
  - eapply agree_bind; [apply agree_transaction_pass; exact Hts|].
    intros ts1' ts2' Hts'. apply IH. exact Hts'.
Qed.

Lemma agree_per_customer_loop lam rows : forall ts1 ts2,
  Forall2 (same_transaction T) ts1 ts2 ->
  agree T (Forall2 (same_transaction T))
    (per_customer_loop lam rows ts1) (per_customer_loop lam rows ts2).
Proof.
  induction rows as [|c rows IH]; intros ts1 ts2 Hts; cbn [per_customer_loop].
  - apply agree_ret. exact Hts.
  - eapply agree_bind; [apply agree_draw|intros ? ? ->].
    eapply agree_bind; [apply agree_transaction_loop; exact Hts|].
    intros ts1' ts2' Hts'. apply IH. exact Hts'.
Qed.

Lemma agree_pipeline n lam w1 w2 :
  (forall k, T (clock w1 k) (clock w2 k)) ->
  match pipeline n lam w1, pipeline n lam w2 with
  | Some ((c1, ts1), _), Some ((c2, ts2), _) =>
      c1 = c2 /\ Forall2 (same_transaction T) ts1 ts2
  | None, None => True
  | _, _ => False
  end.
Proof.
  intros Hc. unfold pipeline. rewrite !bind_run.
  pose proof (agree_generate_telecom_customer_data (Some n) w1 w2 Hc) as Hg.
  destruct (generate_telecom_customer_data (Some n) w1) as [[c1 v1]|],
           (generate_telecom_customer_data (Some n) w2) as [[c2 v2]|];
    try contradiction; [|exact I].
  destruct Hg as [<- Hv].
  assert (Ht : agree T (Forall2 (same_transaction T))
                 (generate_transaction_data c1 (Some lam))
                 (generate_transaction_data c1 (Some lam))).
  { unfold generate_transaction_data. apply agree_per_customer_loop. constructor. }
  specialize (Ht v1 v2 Hv). unfold bind, ret.
  destruct (generate_transaction_data c1 (Some lam) v1) as [[ts1 u1]|],
           (generate_transaction_data c1 (Some lam) v2) as [[ts2 u2]|];
    try contradiction; [|exact I].
  destruct Ht as [Hts _]. split; [reflexivity|exact Hts].
Qed.

End Agreement.

(** ** Transactions refer to rows of the customer table *)

Lemma transaction_pass_inv customer ts w ts' w' :
  transaction_pass customer ts w = Some (ts', w') ->
  exists t, ts' = ts ++ [t] /\
            t_customer_id t = customer_id customer /\
            t_is_fraud t = is_fraud customer.
Proof.
  intros H. unfold transaction_pass in H. run_inv H.
  eexists. split; [eassumption|]. split; reflexivity.
Qed.

Lemma transaction_loop_inv df customer n : forall ts w ts' w',
  In customer df ->
  Forall (refers_to df) ts ->
  transaction_loop n customer ts w = Some (ts', w') ->
  Forall (refers_to df) ts'.
Proof.
  induction n as [|n IH]; intros ts w ts' w' Hin Hts H; cbn [transaction_loop] in H.
  - apply ret_inv in H. destruct H as [-> _]. exact Hts.
  - apply bind_inv in H. destruct H as (ts1 & v & Hpass & H).
    apply transaction_pass_inv in Hpass.
    destruct Hpass as (t & -> & Hid & Hfraud).
    eapply IH; [exact Hin| |exact H].
    apply Forall_app. split; [exact Hts|].
    constructor; [|constructor]. exists customer. auto.
Qed.

Lemma per_customer_loop_inv df lam rows : forall ts w ts' w',
  incl rows df ->
  Forall (refers_to df) ts ->
  per_customer_loop lam rows ts w = Some (ts', w') ->
  Forall (refers_to df) ts'.
Proof.
  induction rows as [|c rows IH]; intros ts w ts' w' Hincl Hts H;
    cbn [per_customer_loop] in H.
  - apply ret_inv in H. destruct H as [-> _]. exact Hts.
  - apply bind_inv in H. destruct H as (k & v & _ & H).
    apply bind_inv in H. destruct H as (ts1 & v1 & Hloop & H).
    eapply IH; [|eapply transaction_loop_inv; [|exact Hts|exact Hloop]|exact H].
    + intros x Hx. apply Hincl. right. exact Hx.
    + apply Hincl. left. reflexivity.
Qed.

(** ** How many transactions a customer gets *)

Lemma transaction_loop_length n customer : forall ts w ts' w',
  transaction_loop n customer ts w = Some (ts', w') ->
  List.length ts' = (List.length ts + n)%nat.
Proof.
  induction n as [|n IH]; intros ts w ts' w' H; cbn [transaction_loop] in H.
  - apply ret_inv in H. destruct H as [-> _]. lia.
  - apply bind_inv in H. destruct H as (ts1 & v & Hpass & H).
    apply transaction_pass_inv in Hpass. destruct Hpass as (t & -> & _).
    apply IH in H. rewrite H, length_app. cbn. lia.
Qed.

(** For a table of one row the count is the Poisson draw made on entry. *)
Lemma single_customer_count lam customer w ts w' :
  per_customer_loop lam [customer] [] w = Some (ts, w') ->
  List.length ts = Z.to_nat (fst (poisson lam (rng_st w))).
Proof.
  intros H. cbn [per_customer_loop] in H.
  apply bind_inv in H. destruct H as (k & v & Hdraw & H).
  apply draw_inv in Hdraw. destruct Hdraw as [-> _].
  apply bind_inv in H. destruct H as (ts1 & v1 & Hloop & H).
  apply ret_inv in H. destruct H as [-> _].
  apply transaction_loop_length in Hloop. exact Hloop.
Qed.

(** ** Under the laws of the stream no row raises *)

Lemma returns_bind {A B} (P : A -> Prop) (Q : B -> Prop)
  (c : M A) (k : A -> M B) :
  returns P c -> (forall a, P a -> returns Q (k a)) -> returns Q (bind c k).
Proof.
  intros Hc Hk w. destruct (Hc w) as (a & v & Hrun & Ha).
  rewrite bind_run, Hrun. apply Hk. exact Ha.
Qed.

Lemma returns_draw {A} (d : rng -> A * rng) :
  returns (fun a => exists r, a = fst (d r)) (draw d).
Proof.
  intros w. unfold draw. destruct (d (rng_st w)) as [a r] eqn:Hd.
  exists a. eexists. split; [reflexivity|]. exists (rng_st w). rewrite Hd.
  reflexivity.
Qed.

Lemma returns_try {A} (o : option A) a :
  o = Some a -> returns (eq a) (try o).
Proof. intros -> w. exists a, w. split; reflexivity. Qed.

Lemma returns_ret {A} (a : A) : returns (fun _ => True) (ret a).
Proof. intros w. exists a, w. split; [reflexivity|exact I]. Qed.

Lemma returns_weaken {A} (P : A -> Prop) (c : M A) :
  returns P c -> returns (fun _ => True) c.
Proof.
  intros Hc w. destruct (Hc w) as (a & v & Hrun & _). exists a, v.
  split; [exact Hrun|exact I].
Qed.

Section Lawful.

Hypothesis laws : numpy_laws RS.

(** [int] of a continuous draw, at the parameters the program uses. *)
Ltac int_of_draw :=
  match goal with
  | |- returns _ (bind (try (py_int (fst ?d))) _) =>
      let n := fresh "n" in
      let Hn := fresh "Hn" in
      assert (Hn : exists n, py_int (fst d) = Some n)
        by (apply py_int_finite;
            first [ apply (normal_finite RS laws)
                  | apply (lognormal_finite RS laws)
                  | apply (exponential_finite RS laws); cbn; tauto ]);
      destruct Hn as [n Hn];
      eapply returns_bind; [apply (returns_try _ n Hn)|intros ? <-]
  end.

Lemma sample_attributes_returns : returns (fun _ => True) sample_attributes.
Proof.
  unfold sample_attributes.
  repeat first
    [ apply returns_ret
    | int_of_draw
    | eapply returns_bind; [apply returns_draw|intros ? [? ->]]
    | eapply returns_bind;
      [ match goal with
        | |- returns _ (if ?b then _ else _) =>
            destruct b;
            [ apply returns_weaken with (1 := returns_draw _)
            | apply returns_ret ]
        end
      | intros ? _ ]
    | progress cbv zeta ].
Qed.

Lemma customer_row_returns i : returns (fun _ => True) (customer_row i).
Proof.
  unfold customer_row. cbv zeta.
  eapply returns_bind; [apply sample_attributes_returns|intros a _].
  repeat (eapply returns_bind; [apply returns_draw|intros ? _]).
  apply returns_ret.
Qed.

Lemma customer_loop_returns n : forall i data,
  returns (fun _ => True) (customer_loop n i data).
Proof.
  induction n as [|n IH]; intros i data; cbn [customer_loop].
  - apply returns_ret.
  - eapply returns_bind; [apply customer_row_returns|intros c _]. apply IH.
Qed.

Lemma generate_telecom_customer_data_returns num w :
  exists customers w',
    generate_telecom_customer_data num w = Some (customers, w').
Proof.
  unfold generate_telecom_customer_data. rewrite bind_run. cbn [np_random_seed].
  destruct (customer_loop_returns (Z.to_nat (arg 10000 num)) 0 []
              {| rng_st := seed 42; clock := clock w |})
    as (customers & w' & Hrun & _).
  exists customers, w'. exact Hrun.
Qed.

(** A generated row is within the ranges of the data model. *)
Lemma row_in_ranges c : row_generated c -> in_ranges c.
Proof.
  intros (i & w & w' & Hrow).
  apply customer_row_inv in Hrow. destruct Hrow as (v & Hattr & _ & Hch & Hfr).
  apply sample_attributes_inv in Hattr.
  cbn [attributes_of a_age a_account_length a_device_age_months
       a_monthly_minutes a_international_calls a_monthly_data_gb
       a_monthly_charge a_monthly_sms a_late_payments
       a_customer_service_calls] in Hattr.
  destruct Hattr as (Hage & Hlen & Hdev & Hmin & Hint & Hgb & _
                     & (l1 & r1 & Hsms) & (l2 & r2 & Hlate) & (l3 & r3 & Hcsc)).
  unfold in_ranges. rewrite Hsms, Hlate, Hcsc, Hch, Hfr.
  repeat match goal with |- _ /\ _ => split end;
    try assumption; try lia;
    first [ apply (poisson_nonneg RS laws) | apply (bernoulli_range RS laws) ].
Qed.

End Lawful.

End Runs.

(** * The concrete stream obeys the laws *)

Lemma pick_in {A} (l : list A) (d : A) s : In (Toy.pick l d s) (d :: l).
Proof.
  unfold Toy.pick.
  destruct (nth_in_or_default
              (Z.to_nat (Toy.bits s mod Z.of_nat (List.length l))) l d) as [H|H].
  - right. exact H.
  - left. symmetry. exact H.
Qed.

Lemma toy_laws : numpy_laws Toy.stream.
Proof.
  constructor.
  - intros r. cbn [normal Toy.stream Toy.toy_normal fst].
    assert (H : Forall (fun z => finite (35 + 12 * z)%float = true)
                  (0%float :: Toy.standard_normals))
      by (repeat constructor).
    rewrite Forall_forall in H. apply H, pick_in.
  - intros scale r Hscale. cbn [exponential Toy.stream Toy.toy_exponential fst].
    assert (H : Forall (fun x =>
                  Forall (fun scale => finite (scale * x)%float = true)
                    [24; 5; 2; 18]%float)
                  (1%float :: Toy.unit_exponentials))
      by (repeat constructor).
    rewrite Forall_forall in H.
    specialize (H _ (pick_in Toy.unit_exponentials 1%float r)).
    rewrite Forall_forall in H. apply H, Hscale.
  - intros r. cbn [lognormal Toy.stream Toy.toy_lognormal fst].
    assert (H : Forall (fun x => finite ((6 * 6 * 6 + 1) * 1 * x)%float = true)
                  (1%float :: Toy.unit_lognormals))
      by (repeat constructor).
    rewrite Forall_forall in H. apply H, pick_in.
  - intros lam r. cbn [poisson Toy.stream Toy.toy_poisson fst].
    pose proof (Z.mod_pos_bound (Toy.bits r) 4 ltac:(lia)).
    assert (0 <= Z.max 0 (arg 0 (py_int lam)) / 10)
      by (apply Z.div_pos; lia).
    lia.
  - intros p r. cbn [binomial Toy.stream Toy.toy_binomial fst].
    destruct (py_float (Toy.bits r mod 100) <? p * 100)%float; auto.
Qed.

Lemma toy_customers_run :
  generate_telecom_customer_data (Some 3) Toy.world1
  = Some (Toy.customers, Toy.after_customers).
Proof.
  assert (H : table_of (generate_telecom_customer_data (Some 3) Toy.world1)
              = Some Toy.customers) by (vm_compute; reflexivity).
  unfold Toy.after_customers.
  destruct (generate_telecom_customer_data (Some 3) Toy.world1) as [[rows w]|];
    [|discriminate].
  injection H as ->. reflexivity.
Qed.

Lemma toy_transactions_run :
  generate_transaction_data Toy.customers (Some 30%float) Toy.after_customers
  = Some (Toy.transactions, Toy.after_transactions).
Proof.
  assert (H : table_of (generate_transaction_data Toy.customers (Some 30%float)
                          Toy.after_customers)
              = Some Toy.transactions) by (vm_compute; reflexivity).
  unfold Toy.after_transactions.
  destruct (generate_transaction_data Toy.customers (Some 30%float)
              Toy.after_customers) as [[rows w]|]; [|discriminate].
  injection H as ->. reflexivity.
Qed.

(** The concrete run looks like the program's output. *)
Example toy_tables :
  map customer_id Toy.customers
  = ["CUST_000001"; "CUST_000002"; "CUST_000003"]%string /\
  List.length Toy.transactions = 15%nat /\
  nth_error (map transaction_id Toy.transactions) 14
  = Some "TXN_00000015"%string /\
  forallb (fun t => (1700000000000000 - 90 * day <? timestamp t)
                    && (timestamp t <=? 1700000000000000 + 15))
    Toy.transactions = true.
Proof. repeat split; vm_compute; reflexivity. Qed.

(** * The customer profile generator *)

(** Closed instances of the theorems below run on the concrete stream. *)
#[local] Existing Instance Toy.stream.

(** C1: every row of a generated customer table has its [churned] label
    drawn by one binomial draw of one trial whose parameter is
    [min(p, 0.8)], [p] being 0.05 plus 0.30 if [late_payments > 2], 0.20 if
    [customer_service_calls > 3], 0.15 if [monthly_charge > 80], 0.25 if
    [account_length_months < 3] and 0.10 if [age < 25 or age > 65], all read
    off the attributes the row records; the draw is made from the stream as
    the row's attribute draws left it. *)
Theorem churned_is_one_capped_bernoulli {RS : RandomState}
  num w customers w' :
  generate_telecom_customer_data num w = Some (customers, w') ->
  Forall (fun c =>
            exists u v,
              sample_attributes u = Some (attributes_of c, v) /\
              churned c = fst (binomial 1 (churn_parameter c) (rng_st v)))
         customers.
Proof.
  intros Hrun. apply generate_telecom_customer_data_inv in Hrun.
  destruct Hrun as [_ Hrows]. revert Hrows. apply Forall_impl.
  intros c (i & u & u' & Hrow).
  apply customer_row_inv in Hrow. destruct Hrow as (v & Hattr & _ & Hch & _).
  exists u, v. split; [exact Hattr|].
  unfold churn_parameter. rewrite <- churn_probability_sum. exact Hch.
Qed.

(** C1 on the three customers of the concrete run. *)
Lemma churned_is_one_capped_bernoulli_witness :
  generate_telecom_customer_data (Some 3) Toy.world1
  = Some (Toy.customers, Toy.after_customers) /\
  Forall (fun c =>
            exists u v,
              sample_attributes u = Some (attributes_of c, v) /\
              churned c = fst (binomial 1 (churn_parameter c) (rng_st v)))
         Toy.customers.
Proof.
  split; [exact toy_customers_run|].
  exact (churned_is_one_capped_bernoulli (Some 3) Toy.world1 Toy.customers
           Toy.after_customers toy_customers_run).
Defined.

(** C2: every row of a generated customer table has its [is_fraud] label
    drawn by one binomial draw of one trial whose parameter is
    [min(q, 0.3)], [q] being 0.02 plus 0.10 if [international_calls > 10],
    0.15 if [monthly_charge > 200] and 0.20 if [account_length_months < 1],
    all read off the attributes the row records; the draw is made from the
    stream as the churn draw left it. *)
Theorem is_fraud_is_one_capped_bernoulli {RS : RandomState}
  num w customers w' :
  generate_telecom_customer_data num w = Some (customers, w') ->
  Forall (fun c =>
            exists u v,
              sample_attributes u = Some (attributes_of c, v) /\
              is_fraud c =
                fst (binomial 1 (fraud_parameter c)
                       (snd (binomial 1 (churn_parameter c) (rng_st v)))))
         customers.
Proof.
  intros Hrun. apply generate_telecom_customer_data_inv in Hrun.
  destruct Hrun as [_ Hrows]. revert Hrows. apply Forall_impl.
  intros c (i & u & u' & Hrow).
  apply customer_row_inv in Hrow. destruct Hrow as (v & Hattr & _ & _ & Hfr).
  exists u, v. split; [exact Hattr|].
  unfold fraud_parameter, churn_parameter.
  rewrite <- fraud_probability_sum, <- churn_probability_sum. exact Hfr.
Qed.

(** C2 on the three customers of the concrete run. *)
Lemma is_fraud_is_one_capped_bernoulli_witness :
  generate_telecom_customer_data (Some 3) Toy.world1
  = Some (Toy.customers, Toy.after_customers) /\
  Forall (fun c =>
            exists u v,
              sample_attributes u = Some (attributes_of c, v) /\
              is_fraud c =
                fst (binomial 1 (fraud_parameter c)
                       (snd (binomial 1 (churn_parameter c) (rng_st v)))))
         Toy.customers.
Proof.
  split; [exact toy_customers_run|].
  exact (is_fraud_is_one_capped_bernoulli (Some 3) Toy.world1 Toy.customers
           Toy.after_customers toy_customers_run).
Defined.

(** C3: in every row of a generated customer table, [monthly_charge] is
    [20 + 0.05*monthly_minutes + 2*monthly_data_gb + 0.1*monthly_sms] rounded
    to two decimals, computed from the usage fields of that same row. *)
Theorem monthly_charge_is_billing {RS : RandomState} num w customers w' :
  generate_telecom_customer_data num w = Some (customers, w') ->
  Forall (fun c => monthly_charge c = billing c) customers.
Proof.
  intros Hrun. apply generate_telecom_customer_data_inv in Hrun.
  destruct Hrun as [_ Hrows]. revert Hrows. apply Forall_impl.
  intros c (i & u & u' & Hrow).
  apply customer_row_inv in Hrow. destruct Hrow as (v & Hattr & _).
  apply sample_attributes_inv in Hattr.
  destruct Hattr as (_ & _ & _ & _ & _ & _ & Hcharge & _).
  cbn [attributes_of a_monthly_charge a_monthly_minutes a_monthly_data_gb
       a_monthly_sms] in Hcharge.
  unfold billing. rewrite Hcharge.
  rewrite (float_mul_comm 0.05), (float_mul_comm 2), (float_mul_comm 0.1).
  reflexivity.
Qed.

(** C3 on the three customers of the concrete run. *)
Lemma monthly_charge_is_billing_witness :
  generate_telecom_customer_data (Some 3) Toy.world1
  = Some (Toy.customers, Toy.after_customers) /\
  Forall (fun c => monthly_charge c = billing c) Toy.customers.
Proof.
  split; [exact toy_customers_run|].
  exact (monthly_charge_is_billing (Some 3) Toy.world1 Toy.customers
           Toy.after_customers toy_customers_run).
Defined.

(** C4: under the laws of the stream the generator returns a table, and in
    every row [age] is in [18,80], [account_length_months] in [1,120],
    [device_age_months] in [1,60], [monthly_data_gb] at least 0.1, the five
    counts non-negative integers, and [churned] and [is_fraud] 0 or 1. *)
Theorem generated_rows_in_ranges {RS : RandomState} (laws : numpy_laws RS)
  num w :
  exists customers w',
    generate_telecom_customer_data num w = Some (customers, w') /\
    Forall in_ranges customers.
Proof.
  destruct (generate_telecom_customer_data_returns laws num w)
    as (customers & w' & Hrun).
  exists customers, w'. split; [exact Hrun|].
  apply generate_telecom_customer_data_inv in Hrun.
  destruct Hrun as [_ Hrows]. revert Hrows. apply Forall_impl.
  apply (row_in_ranges laws).
Qed.

(** C4 on the concrete stream, which obeys the laws. *)
Lemma generated_rows_in_ranges_witness :
  numpy_laws Toy.stream /\
  exists customers w',
    generate_telecom_customer_data (Some 3) Toy.world1 = Some (customers, w') /\
    Forall in_ranges customers.
Proof.
  split; [exact toy_laws|].
  exact (generated_rows_in_ranges toy_laws (Some 3) Toy.world1).
Defined.

(** C9: in every row of a generated customer table the tenure is at least
    one month, so the test [account_length_months < 1] of the fraud model
    fails and its increment is never added: the parameter of the fraud draw
    is 0.02 plus the two other increments, it is at most 0.27, and the cap
    at 0.3 leaves it as it is. *)
Theorem fraud_cap_never_binds {RS : RandomState} num w customers w' :
  generate_telecom_customer_data num w = Some (customers, w') ->
  Forall (fun c =>
            (account_length_months c <? 1) = false /\
            fraud_parameter c =
              (0.02 + increment (international_calls c >? 10) 0.1
               + increment (200 <? monthly_charge c) 0.15)%float /\
            (fraud_parameter c <=? 0.27)%float = true /\
            fraud_parameter c = fraud_sum c /\
            exists r, is_fraud c = fst (binomial 1 (fraud_parameter c) r))
         customers.
Proof.
  intros Hrun. apply generate_telecom_customer_data_inv in Hrun.
  destruct Hrun as [_ Hrows]. revert Hrows. apply Forall_impl.
  intros c (i & u & u' & Hrow).
  apply customer_row_inv in Hrow. destruct Hrow as (v & Hattr & _ & _ & Hfr).
  apply sample_attributes_inv in Hattr.
  destruct Hattr as (_ & Hlen & _).
  cbn [attributes_of a_account_length] in Hlen.
  destruct (fraud_sum_tenured c ltac:(lia)) as (Hsum & Hle & Hcap).
  split; [apply Z.ltb_ge; lia|].
  rewrite Hcap. repeat split; try assumption.
  eexists. rewrite <- Hcap. unfold fraud_parameter.
  rewrite <- fraud_probability_sum. exact Hfr.
Qed.

(** C9 on the three customers of the concrete run. *)
Lemma fraud_cap_never_binds_witness :
  generate_telecom_customer_data (Some 3) Toy.world1
  = Some (Toy.customers, Toy.after_customers) /\
  Forall (fun c =>
            (account_length_months c <? 1) = false /\
            fraud_parameter c =
              (0.02 + increment (international_calls c >? 10) 0.1
               + increment (200 <? monthly_charge c) 0.15)%float /\
            (fraud_parameter c <=? 0.27)%float = true /\
            fraud_parameter c = fraud_sum c /\
            exists r, is_fraud c = fst (binomial 1 (fraud_parameter c) r))
         Toy.customers.
Proof.
  split; [exact toy_customers_run|].
  exact (fraud_cap_never_binds (Some 3) Toy.world1 Toy.customers
           Toy.after_customers toy_customers_run).
Defined.

(** C10: the generator has no seed argument and reseeds the stream with 42
    on entry: for a given [num_customers], two calls return the same table
    (or both raise) whatever the stream's state and the clock were before. *)
Theorem customer_table_ignores_prior_stream {RS : RandomState} num w1 w2 :
  table_of (generate_telecom_customer_data num w1)
  = table_of (generate_telecom_customer_data num w2).
Proof.
  pose proof (agree_generate_telecom_customer_data (fun _ _ => True)
                num w1 w2 (fun _ => I)) as H.
  destruct (generate_telecom_customer_data num w1) as [[c1 v1]|],
           (generate_telecom_customer_data num w2) as [[c2 v2]|];
    try contradiction; [|reflexivity].
  destruct H as [-> _]. reflexivity.
Qed.

(** A population size of zero is not refused: the call returns. *)
Lemma zero_customers_is_not_an_error :
  generate_telecom_customer_data (Some 0) Toy.world1 <> None.
Proof.
  intros H. apply (f_equal table_of) in H. vm_compute in H. discriminate.
Qed.

(** C6, as the code has it: for a population size of zero or less the
    generator raises nothing; it reseeds the stream, draws nothing from it,
    and returns the empty table. *)
Theorem nonpositive_size_gives_empty_table {RS : RandomState} n w :
  n <= 0 ->
  generate_telecom_customer_data (Some n) w
  = Some ([], {| rng_st := seed 42; clock := clock w |}).
Proof.
  intros Hn. unfold generate_telecom_customer_data. cbn [arg].
  replace (Z.to_nat n) with O by lia. reflexivity.
Qed.

(** C6 at a population size of -5. *)
Lemma nonpositive_size_gives_empty_table_witness :
  -5 <= 0 /\
  generate_telecom_customer_data (Some (-5)) Toy.world1
  = Some ([], {| rng_st := seed 42; clock := clock Toy.world1 |}).
Proof.
  split; [lia|].
  apply (nonpositive_size_gives_empty_table (-5) Toy.world1). lia.
Defined.

(** * The transaction generator *)

(** C7: every transaction generated from a customer table carries the
    [customer_id] of one of the table's rows, and the [is_fraud] label of
    that same row. *)
Theorem transactions_copy_their_customer {RS : RandomState}
  customer_df transactions_per_customer w transactions w' :
  generate_transaction_data customer_df transactions_per_customer w
  = Some (transactions, w') ->
  Forall (refers_to customer_df) transactions.
Proof.
  unfold generate_transaction_data. intros Hrun.
  eapply per_customer_loop_inv; [|constructor|exact Hrun].
  apply incl_refl.
Qed.

(** C7 on the transactions of the concrete run. *)
Lemma transactions_copy_their_customer_witness :
  generate_transaction_data Toy.customers (Some 30%float) Toy.after_customers
  = Some (Toy.transactions, Toy.after_transactions) /\
  Forall (refers_to Toy.customers) Toy.transactions.
Proof.
  split; [exact toy_transactions_run|].
  exact (transactions_copy_their_customer Toy.customers (Some 30%float)
           Toy.after_customers Toy.transactions Toy.after_transactions
           toy_transactions_run).
Defined.

(** Leaving the mean out is not the same as passing 30: on the concrete
    stream the two calls return tables of different lengths. *)
Lemma default_mean_is_not_30 :
  table_of (generate_transaction_data Toy.customers None Toy.after_customers)
  <> table_of (generate_transaction_data Toy.customers (Some 30%float)
                 Toy.after_customers).
Proof.
  intros H.
  apply (f_equal (option_map (@List.length Transaction))) in H.
  vm_compute in H. discriminate.
Qed.

(** C8, as the code has it: when the mean is left out the transaction
    generator uses 50: the call is the call with 50, and for a table of one
    row the number of transactions is the Poisson draw of mean 50 made on
    entry. *)
Theorem default_mean_is_50 {RS : RandomState} customer_df :
  generate_transaction_data customer_df None
  = generate_transaction_data customer_df (Some 50%float) /\
  forall customer w transactions w',
    generate_transaction_data [customer] None w = Some (transactions, w') ->
    List.length transactions = Z.to_nat (fst (poisson 50 (rng_st w))).
Proof.
  split; [reflexivity|].
  intros customer w transactions w' Hrun.
  unfold generate_transaction_data in Hrun. cbn [arg] in Hrun.
  exact (single_customer_count 50 customer w transactions w' Hrun).
Qed.

(** C8 on the hand-written customer: five transactions, the draw of mean 50
    of the concrete stream. *)
Lemma default_mean_is_50_witness :
  exists transactions w',
    generate_transaction_data Toy.one_customer None Toy.world1
    = Some (transactions, w') /\
    List.length transactions = Z.to_nat (fst (poisson 50 7)) /\
    List.length transactions = 5%nat.
Proof.
  destruct (generate_transaction_data Toy.one_customer None Toy.world1)
    as [[transactions w']|] eqn:Hrun.
  - exists transactions, w'. split; [reflexivity|].
    pose proof (proj2 (default_mean_is_50 []) _ _ _ _ Hrun) as Hlen.
    split; [exact Hlen|]. rewrite Hlen. vm_compute. reflexivity.
  - apply (f_equal table_of) in Hrun. vm_compute in Hrun. discriminate.
Defined.

(** * The two stages together *)

Lemma same_transaction_blank ts1 ts2 :
  Forall2 (same_transaction (fun _ _ => True)) ts1 ts2 ->
  map without_timestamp ts1 = map without_timestamp ts2.
Proof.
  induction 1 as [|t1 t2 ts1 ts2 Ht _ IH]; [reflexivity|].
  cbn [map]. rewrite IH. f_equal.
  destruct Ht as (H1 & H2 & H3 & H4 & H5 & _).
  unfold without_timestamp. rewrite H1, H2, H3, H4, H5. reflexivity.
Qed.

Lemma same_transaction_eq ts1 ts2 :
  Forall2 (same_transaction eq) ts1 ts2 -> ts1 = ts2.
Proof.
  induction 1 as [|t1 t2 ts1 ts2 Ht _ IH]; [reflexivity|].
  rewrite IH. f_equal.
  destruct t1, t2. unfold same_transaction in Ht. cbn in Ht.
  destruct Ht as (-> & -> & -> & -> & -> & ->). reflexivity.
Qed.

(** Two runs with the same sizes do not return the same tables: the
    timestamps follow the clock. *)
Lemma runs_differ_in_timestamps :
  table_of (pipeline 2 30 Toy.world1) <> table_of (pipeline 2 30 Toy.world2).
Proof.
  intros H.
  apply (f_equal (fun o => match o with
                           | Some (_, t :: _) => timestamp t
                           | _ => 0
                           end)) in H.
  vm_compute in H. discriminate.
Qed.

(** C5, as the code has it: two runs of both stages with the same
    population size and the same mean either both raise or return the same
    customer table and transaction tables that are equal in every field of
    every row but [timestamp]; the timestamps are equal too when the two
    runs read the same clock values. *)
Theorem runs_agree_up_to_the_clock {RS : RandomState} n lam w1 w2 :
  option_map without_timestamps (table_of (pipeline n lam w1))
  = option_map without_timestamps (table_of (pipeline n lam w2)) /\
  ((forall k, clock w1 k = clock w2 k) ->
   table_of (pipeline n lam w1) = table_of (pipeline n lam w2)).
Proof.
  split.
  - pose proof (agree_pipeline (fun _ _ => True) (fun _ _ _ _ => I)
                  n lam w1 w2 (fun _ => I)) as H.
    destruct (pipeline n lam w1) as [[[c1 ts1] v1]|],
             (pipeline n lam w2) as [[[c2 ts2] v2]|];
      try contradiction; [|reflexivity].
    destruct H as [-> Hts]. cbn. unfold without_timestamps. cbn.
    rewrite (same_transaction_blank _ _ Hts). reflexivity.
  - intros Hclock.
    assert (Hshift : forall a b d : Z, a = b -> a - d = b - d)
      by (intros; subst; reflexivity).
    pose proof (agree_pipeline eq Hshift n lam w1 w2 Hclock) as H.
    destruct (pipeline n lam w1) as [[[c1 ts1] v1]|],
             (pipeline n lam w2) as [[[c2 ts2] v2]|];
      try contradiction; [|reflexivity].
    destruct H as [-> Hts]. cbn.
    rewrite (same_transaction_eq _ _ Hts). reflexivity.
Qed.

(** C5 on two concrete runs that start from different stream states and read
    the same clock. *)
Lemma runs_agree_up_to_the_clock_witness :
  (forall k, clock Toy.world1 k = clock Toy.world3 k) /\
  table_of (pipeline 2 30 Toy.world1) = table_of (pipeline 2 30 Toy.world3).
Proof.
  assert (H : forall k, clock Toy.world1 k = clock Toy.world3 k)
    by (intros k; reflexivity).
  split; [exact H|].
  exact (proj2 (runs_agree_up_to_the_clock 2 30 Toy.world1 Toy.world3) H).
Defined.

(** * Identifiers read back *)

Lemma uint_of_zeros k s :
  NilEmpty.uint_of_string (zeros k ++ s)
  = option_map (Nat.iter k Decimal.D0) (NilEmpty.uint_of_string s).
Proof.
  induction k as [|k IH]; cbn [zeros String.append Nat.iter].
  - destruct (NilEmpty.uint_of_string s); reflexivity.
  - cbn [NilEmpty.uint_of_string]. rewrite IH.
    destruct (NilEmpty.uint_of_string s); reflexivity.
Qed.

Lemma of_uint_zeros k d : N.of_uint (Nat.iter k Decimal.D0 d) = N.of_uint d.
Proof. induction k as [|k IH]; [reflexivity|]. cbn [Nat.iter]. exact IH. Qed.

Lemma digits_nonempty d : NilZero.string_of_uint d <> EmptyString.
Proof. destruct d; discriminate. Qed.

Lemma nilzero_nilempty s :
  s <> EmptyString -> NilZero.uint_of_string s = NilEmpty.uint_of_string s.
Proof. destruct s; [congruence|reflexivity]. Qed.

Lemma append_nonempty s1 s2 : s2 <> EmptyString -> (s1 ++ s2)%string <> EmptyString.
Proof. destruct s1; [auto|discriminate]. Qed.

Lemma int_of_zero_padded width n :
  0 <= n -> int_of_digits (zero_padded width n) = Some n.
Proof.
  intros Hn. unfold int_of_digits, zero_padded.
  pose proof (DecimalN.Unsigned.of_to (Z.to_N n)) as Hof.
  remember (N.to_uint (Z.to_N n)) as d eqn:Ed. clear Ed.
  rewrite nilzero_nilempty by (apply append_nonempty, digits_nonempty).
  rewrite uint_of_zeros.
  rewrite <- nilzero_nilempty by apply digits_nonempty.
  assert (Hd : exists d', NilZero.uint_of_string (NilZero.string_of_uint d) = Some d'
                          /\ N.of_uint d' = N.of_uint d).
  { destruct d; try (eexists; split; [apply NilZero.usu; discriminate|reflexivity]).
    exists Decimal.zero. split; reflexivity. }
  destruct Hd as (d' & -> & Hd'). cbn [option_map].
  rewrite of_uint_zeros, Hd', Hof. f_equal. lia.
Qed.

Lemma zero_padded_width width n :
  (width <= String.length (zero_padded width n))%nat.
Proof.
  unfold zero_padded.
  set (digits := NilZero.string_of_uint (N.to_uint (Z.to_N n))).
  assert (H : forall k s, String.length (zeros k ++ s) = (k + String.length s)%nat).
  { induction k as [|k IH]; intros s; cbn; [reflexivity|]. rewrite IH. reflexivity. }
  rewrite H. lia.
Qed.

Lemma zero_padded_inj w n m :
  0 <= n -> 0 <= m -> zero_padded w n = zero_padded w m -> n = m.
Proof.
  intros Hn Hm H. apply (f_equal int_of_digits) in H.
  rewrite !int_of_zero_padded in H by assumption. congruence.
Qed.

Lemma customer_id_inj a b :
  ("CUST_" ++ a)%string = ("CUST_" ++ b)%string -> a = b.
Proof. cbn. intros H. injection H as H. exact H. Qed.

Lemma transaction_id_inj a b :
  ("TXN_" ++ a)%string = ("TXN_" ++ b)%string -> a = b.
Proof. cbn. intros H. injection H as H. exact H. Qed.

Lemma NoDup_map_injective {A B} (f : A -> B) l :
  (forall x y, f x = f y -> x = y) -> NoDup l -> NoDup (map f l).
Proof.
  intros Hf. induction 1 as [|x l Hx _ IH]; cbn [map]; constructor; [|exact IH].
  intros Hin. apply in_map_iff in Hin. destruct Hin as (y & Hy & Hin).
  apply Hf in Hy. subst y. contradiction.
Qed.

Lemma customer_ids_NoDup n : NoDup (customer_ids n).
Proof.
  unfold customer_ids. apply NoDup_map_injective; [|apply seq_NoDup].
  intros j k H. apply customer_id_inj, zero_padded_inj in H; lia.
Qed.

Lemma transaction_ids_NoDup n : NoDup (transaction_ids n).
Proof.
  unfold transaction_ids. apply NoDup_map_injective; [|apply seq_NoDup].
  intros j k H. apply transaction_id_inj, zero_padded_inj in H; lia.
Qed.

(** * The risk parameters are probabilities *)

Lemma churn_parameter_bounds a :
  (0.05 <=? py_min (churn_probability a) 0.8)%float = true /\
  (py_min (churn_probability a) 0.8 <=? 0.8)%float = true.
Proof.
  unfold churn_probability.
  destruct (a_late_payments a >? 2), (a_customer_service_calls a >? 3),
    (80 <? a_monthly_charge a)%float, (a_account_length a <? 3),
    ((a_age a <? 25) || (a_age a >? 65)); split; reflexivity.
Qed.

Lemma fraud_parameter_bounds a :
  (0.02 <=? py_min (fraud_probability a) 0.3)%float = true /\
  (py_min (fraud_probability a) 0.3 <=? 0.3)%float = true.
Proof.
  unfold fraud_probability.
  destruct (a_international_calls a >? 10), (200 <? a_monthly_charge a)%float,
    (a_account_length a <? 1); split; reflexivity.
Qed.

Section MoreRuns.

Context {RS : RandomState}.

Ltac invert_run H :=
  repeat first
    [ apply bind_inv in H; destruct H as (? & ? & ? & H)
    | progress cbv zeta in H ];
  repeat match goal with
    | E : draw _ _ = Some _ |- _ => apply draw_inv in E; destruct E as [? ?]
    | E : try _ _ = Some _ |- _ => apply try_inv in E; destruct E as [? ?]
    | E : ret _ _ = Some _ |- _ => apply ret_inv in E; destruct E as [? ?]
    end.

(** ** More about one customer row *)

Lemma sample_attributes_draws w a w' :
  sample_attributes w = Some (a, w') ->
  clock w' = clock w /\
  (exists r, a_late_payments a
             = fst (poisson (if (a_account_length a <? 6)%Z then 0.2 else 0.5)%float r)) /\
  (exists r, a_contract_type a
             = fst (choice ["Prepaid"; "Postpaid"]%string [0.6; 0.4]%float r)).
Proof.
  intros H. unfold sample_attributes in H. invert_run H.
  match goal with
  | E : (if ?b then _ else _) _ = Some _ |- _ => destruct b eqn:Hnew
  end.
  - match goal with E : draw _ _ = Some _ |- _ => apply draw_inv in E; destruct E end.
    subst. cbn. rewrite Hnew. repeat split; eauto.
  - match goal with E : ret _ _ = Some _ |- _ => apply ret_inv in E; destruct E end.
    subst. cbn. rewrite Hnew. repeat split; eauto.
Qed.

Lemma customer_row_draws i w c w' :
  customer_row i w = Some (c, w') ->
  clock w' = clock w /\
  customer_id c = ("CUST_" ++ zero_padded 6 (i + 1))%string /\
  (exists r, late_payments c
             = fst (poisson (if (account_length_months c <? 6)%Z then 0.2 else 0.5)%float r)) /\
  (exists r, contract_type c
             = fst (choice ["Prepaid"; "Postpaid"]%string [0.6; 0.4]%float r)) /\
  (exists r, city c
             = fst (choice ghana_cities
                      [0.3; 0.2; 0.1; 0.08; 0.08; 0.07; 0.05; 0.04; 0.04; 0.04]%float r)).
Proof.
  intros H. unfold customer_row in H. invert_run H.
  match goal with E : sample_attributes _ = Some _ |- _ =>
    apply sample_attributes_draws in E; destruct E as (Hclock & Hlate & Hcontract)
  end.
  subst. cbn. repeat split; eauto.
Qed.

Lemma customer_loop_rows n : forall i data w rows w',
  customer_loop n i data w = Some (rows, w') ->
  clock w' = clock w /\
  exists new,
    rows = data ++ new /\
    map customer_id new
    = map (fun k => ("CUST_" ++ zero_padded 6 (i + Z.of_nat k + 1))%string) (seq 0 n).
Proof.
  induction n as [|n IH]; intros i data w rows w' H; cbn [customer_loop] in H.
  - apply ret_inv in H. destruct H as [-> ->]. split; [reflexivity|].
    exists []. rewrite app_nil_r. split; reflexivity.
  - apply bind_inv in H. destruct H as (c & v & Hrow & H).
    apply customer_row_draws in Hrow. destruct Hrow as (Hclock & Hid & _).
    apply IH in H. destruct H as (Hclock' & new & -> & Hids).
    split; [congruence|].
    exists (c :: new). rewrite <- app_assoc. split; [reflexivity|].
    cbn [map seq]. rewrite Hid, Hids, <- seq_shift, map_map. f_equal.
    + do 2 f_equal. lia.
    + apply map_ext. intros k. do 2 f_equal. lia.
Qed.

(** ** The transaction loops, row by row *)

Lemma transaction_pass_made customer ts w ts' w' :
  transaction_pass customer ts w = Some (ts', w') ->
  exists t,
    ts' = ts ++ [t] /\
    made_by customer (List.length ts) (clock w O) t /\
    forall j, clock w' j = clock w (S j).
Proof.
  intros H. unfold transaction_pass in H. unfold made_by.
  destruct (truthy (is_fraud customer)); invert_run H;
    unfold datetime_now in *;
    match goal with E : Some _ = Some _ |- _ => injection E as ? ? end;
    subst; eexists; (split; [reflexivity|]); cbn;
    repeat split; eauto.
Qed.

Lemma transaction_loop_made n customer : forall ts w ts' w',
  transaction_loop n customer ts w = Some (ts', w') ->
  exists new,
    ts' = ts ++ new /\ List.length new = n /\
    (forall j, clock w' j = clock w (j + n)%nat) /\
    forall j t, nth_error new j = Some t ->
                made_by customer (List.length ts + j) (clock w j) t.
Proof.
  induction n as [|n IH]; intros ts w ts' w' H; cbn [transaction_loop] in H.
  - apply ret_inv in H. destruct H as [-> ->]. exists [].
    rewrite app_nil_r. split; [reflexivity|]. split; [reflexivity|]. split.
    + intros j. f_equal. lia.
    + intros [|j] t Hj; discriminate.
  - apply bind_inv in H. destruct H as (ts1 & v & Hpass & H).
    apply transaction_pass_made in Hpass.
    destruct Hpass as (t0 & -> & Hmade & Hclock).
    apply IH in H. destruct H as (new & -> & Hlen & Hclock' & Hnew).
    exists (t0 :: new). rewrite <- app_assoc.
    split; [reflexivity|]. split; [|split].
    + cbn. lia.
    + intros j. rewrite Hclock', Hclock. f_equal. lia.
    + intros [|j] t Hj; cbn in Hj.
      * injection Hj as <-. rewrite Nat.add_0_r. exact Hmade.
      * specialize (Hnew j t Hj). rewrite length_app in Hnew. cbn in Hnew.
        rewrite Hclock in Hnew.
        replace (List.length ts + S j)%nat with (List.length ts + 1 + j)%nat by lia.
        exact Hnew.
Qed.

Lemma per_customer_loop_made lam rows : forall ts w ts' w',
  per_customer_loop lam rows ts w = Some (ts', w') ->
  exists new,
    ts' = ts ++ new /\
    (forall j, clock w' j = clock w (j + List.length new)%nat) /\
    forall j t, nth_error new j = Some t ->
                exists customer,
                  In customer rows /\
                  made_by customer (List.length ts + j) (clock w j) t.
Proof.
  induction rows as [|c rows IH]; intros ts w ts' w' H; cbn [per_customer_loop] in H.
  - apply ret_inv in H. destruct H as [-> ->]. exists [].
    rewrite app_nil_r. split; [reflexivity|]. split.
    + intros j. f_equal. cbn. lia.
    + intros [|j] t Hj; discriminate.
  - apply bind_inv in H. destruct H as (k & v & Hdraw & H).
    apply draw_inv in Hdraw. destruct Hdraw as [_ ->].
    apply bind_inv in H. destruct H as (ts1 & v1 & Hloop & H).
    apply transaction_loop_made in Hloop.
    destruct Hloop as (block & -> & Hlen & Hclock & Hblock).
    cbn [clock] in Hclock, Hblock.
    apply IH in H. destruct H as (new & -> & Hclock' & Hnew).
    exists (block ++ new). rewrite <- app_assoc. split; [reflexivity|]. split.
    + intros j. rewrite Hclock', Hclock, length_app. f_equal. lia.
    + intros j t Hj.
      destruct (Nat.lt_ge_cases j (List.length block)) as [Hlt|Hge].
      * rewrite nth_error_app1 in Hj by exact Hlt.
        exists c. split; [left; reflexivity|]. apply Hblock. exact Hj.
      * rewrite nth_error_app2 in Hj by exact Hge.
        destruct (Hnew _ _ Hj) as (c' & Hin & Hmade).
        exists c'. split; [right; exact Hin|].
        rewrite length_app, Hclock in Hmade.
        replace (List.length ts + List.length block
                 + (j - List.length block))%nat
          with (List.length ts + j)%nat in Hmade by lia.
        replace (j - List.length block + Z.to_nat k)%nat with j in Hmade by lia.
        exact Hmade.
Qed.

Lemma owners_of_block (x : string * Z) new :
  (forall j t, nth_error new j = Some t -> owner t = x) ->
  map owner new = repeat x (List.length new).
Proof.
  induction new as [|t new IH]; intros H; [reflexivity|].
  cbn [map List.length repeat]. rewrite (H O t eq_refl). f_equal.
  apply IH. intros j t' Hj. exact (H (S j) t' Hj).
Qed.

Lemma per_customer_loop_order lam rows : forall ts w ts' w',
  per_customer_loop lam rows ts w = Some (ts', w') ->
  exists counts,
    Forall2 (fun (_ : CustomerProfile) n =>
               exists r, n = Z.to_nat (fst (poisson lam r))) rows counts /\
    map owner ts' = map owner ts ++ owners_in_order rows counts.
Proof.
  induction rows as [|c rows IH]; intros ts w ts' w' H; cbn [per_customer_loop] in H.
  - apply ret_inv in H. destruct H as [-> _]. exists [].
    split; [constructor|]. cbn. rewrite app_nil_r. reflexivity.
  - apply bind_inv in H. destruct H as (k & v & Hdraw & H).
    apply draw_inv in Hdraw. destruct Hdraw as [-> _].
    apply bind_inv in H. destruct H as (ts1 & v1 & Hloop & H).
    apply transaction_loop_made in Hloop.
    destruct Hloop as (block & -> & Hlen & _ & Hblock).
    apply IH in H. destruct H as (counts & Hcounts & Howners).
    exists (List.length block :: counts). split.
    + constructor; [|exact Hcounts]. rewrite Hlen. eauto.
    + rewrite Howners, map_app, <- app_assoc. f_equal.
      unfold owners_in_order. cbn [combine flat_map fst snd]. f_equal.
      apply owners_of_block. intros j t Hj.
      destruct (Hblock j t Hj) as (Hid & Hfraud & _).
      unfold owner. rewrite Hid, Hfraud. reflexivity.
Qed.

End MoreRuns.

Lemma map_by_position {A B} (f : A -> B) l : forall (g : nat -> B),
  (forall j t, nth_error l j = Some t -> f t = g j) ->
  map f l = map g (seq 0 (List.length l)).
Proof.
  induction l as [|x l IH]; intros g H; [reflexivity|].
  cbn [map List.length seq]. rewrite (H O x eq_refl). f_equal.
  rewrite <- seq_shift, map_map. apply IH.
  intros j t Hj. exact (H (S j) t Hj).
Qed.

Lemma Forall_by_position {A} (P : A -> Prop) l :
  (forall j t, nth_error l j = Some t -> P t) -> Forall P l.
Proof.
  intros H. apply Forall_forall. intros t Hin.
  apply In_nth_error in Hin. destruct Hin as [j Hj]. exact (H j t Hj).
Qed.

(** * The concrete stream obeys the two further laws *)

Lemma toy_choice_law : choice_law Toy.stream.
Proof.
  intros l p r Hl. cbn [choice Toy.stream Toy.toy_choice fst]. unfold Toy.pick.
  apply nth_In.
  assert (0 < Z.of_nat (List.length l)) by (destruct l; [congruence|cbn; lia]).
  pose proof (Z.mod_pos_bound (Toy.bits r) (Z.of_nat (List.length l)) ltac:(lia)).
  lia.
Qed.


Lemma toy_pipeline_run :
  pipeline 3 30 Toy.world1
  = Some ((Toy.customers, Toy.transactions), Toy.after_transactions).
Proof.
  unfold pipeline. rewrite bind_run, toy_customers_run.
  rewrite bind_run, toy_transactions_run. reflexivity.
Qed.

(** * More about the customer table *)

(** X1: the [customer_id] column of a generated table is [CUST_000001],
    [CUST_000002], ... in row order, one per pass of the loop: the table has
    exactly [max(0, num_customers)] rows and no identifier is skipped. *)
Theorem customer_ids_are_sequential {RS : RandomState} num w customers w' :
  generate_telecom_customer_data num w = Some (customers, w') ->
  map customer_id customers = customer_ids (Z.to_nat (arg 10000 num)).
Proof.
  unfold generate_telecom_customer_data. intros H.
  apply bind_inv in H. destruct H as (u & v & _ & H).
  apply customer_loop_rows in H. destruct H as (_ & new & -> & Hids).
  cbn [app]. rewrite Hids. unfold customer_ids. apply map_ext.
  intros k. do 2 f_equal.
Qed.

(** X1 on the concrete run. *)
Lemma customer_ids_are_sequential_witness :
  generate_telecom_customer_data (Some 3) Toy.world1
  = Some (Toy.customers, Toy.after_customers) /\
  map customer_id Toy.customers
  = ["CUST_000001"; "CUST_000002"; "CUST_000003"]%string.
Proof.
  split; [exact toy_customers_run|].
  exact (customer_ids_are_sequential (Some 3) Toy.world1 Toy.customers
           Toy.after_customers toy_customers_run).
Defined.

(** X2: no two rows of a generated customer table share a [customer_id]. *)
Theorem customer_ids_are_unique {RS : RandomState} num w customers w' :
  generate_telecom_customer_data num w = Some (customers, w') ->
  NoDup (map customer_id customers).
Proof.
  unfold generate_telecom_customer_data. intros H.
  apply bind_inv in H. destruct H as (u & v & _ & H).
  apply customer_loop_rows in H. destruct H as (_ & new & -> & Hids).
  cbn [app]. rewrite Hids.
  apply NoDup_map_injective; [|apply seq_NoDup].
  intros j k Hjk. apply customer_id_inj, zero_padded_inj in Hjk; lia.
Qed.

(** X2 on the concrete run. *)
Lemma customer_ids_are_unique_witness :
  generate_telecom_customer_data (Some 3) Toy.world1
  = Some (Toy.customers, Toy.after_customers) /\
  NoDup (map customer_id Toy.customers).
Proof.
  split; [exact toy_customers_run|].
  exact (customer_ids_are_unique (Some 3) Toy.world1 Toy.customers
           Toy.after_customers toy_customers_run).
Defined.

(** X3: the zero-padded numeral of an identifier reads back as the number
    it was made from, and is never shorter than the width asked for. *)
Theorem zero_padded_reads_back width n :
  0 <= n ->
  int_of_digits (zero_padded width n) = Some n /\
  (width <= String.length (zero_padded width n))%nat.
Proof.
  intros Hn. split; [apply int_of_zero_padded; exact Hn|apply zero_padded_width].
Qed.

(** X3 on the concrete run. *)
Lemma zero_padded_reads_back_witness :
  0 <= 42 /\
  int_of_digits (zero_padded 6 42) = Some 42 /\
  (6 <= String.length (zero_padded 6 42))%nat.
Proof.
  split; [lia|]. apply (zero_padded_reads_back 6 42). lia.
Defined.

(** X4: the customer stage never reads the clock: the readings to come
    are the same after the call as before it. *)
Theorem customer_stage_leaves_the_clock {RS : RandomState}
  num w customers w' :
  generate_telecom_customer_data num w = Some (customers, w') ->
  clock w' = clock w.
Proof.
  unfold generate_telecom_customer_data. intros H.
  apply bind_inv in H. destruct H as (u & v & Hseed & H).
  apply customer_loop_rows in H. destruct H as (Hclock & _).
  unfold np_random_seed in Hseed. injection Hseed as _ <-. exact Hclock.
Qed.

(** X4 on the concrete run. *)
Lemma customer_stage_leaves_the_clock_witness :
  generate_telecom_customer_data (Some 3) Toy.world1
  = Some (Toy.customers, Toy.after_customers) /\
  clock Toy.after_customers = clock Toy.world1.
Proof.
  split; [exact toy_customers_run|].
  exact (customer_stage_leaves_the_clock (Some 3) Toy.world1 Toy.customers
           Toy.after_customers toy_customers_run).
Defined.

Lemma generated_row_draws {RS : RandomState} c :
  row_generated c ->
  (exists r, late_payments c
             = fst (poisson (if (account_length_months c <? 6)%Z
                             then 0.2 else 0.5)%float r)) /\
  (exists r, contract_type c
             = fst (choice ["Prepaid"; "Postpaid"]%string [0.6; 0.4]%float r)) /\
  (exists r, city c
             = fst (choice ghana_cities
                      [0.3; 0.2; 0.1; 0.08; 0.08; 0.07; 0.05; 0.04; 0.04; 0.04]%float r)).
Proof.
  intros (i & w & w' & Hrow). apply customer_row_draws in Hrow.
  destruct Hrow as (_ & _ & H). exact H.
Qed.

(** X5: [late_payments] of a row is a Poisson draw of mean 0.2 when the
    row's tenure is under six months, and of mean 0.5 otherwise. *)
Theorem late_payments_mean_follows_tenure {RS : RandomState}
  num w customers w' :
  generate_telecom_customer_data num w = Some (customers, w') ->
  Forall (fun c =>
            exists r,
              late_payments c
              = fst (poisson (if (account_length_months c <? 6)%Z
                              then 0.2 else 0.5)%float r))
         customers.
Proof.
  intros H. apply generate_telecom_customer_data_inv in H.
  destruct H as [_ Hrows]. revert Hrows. apply Forall_impl.
  intros c Hc. apply generated_row_draws in Hc. destruct Hc as (H & _). exact H.
Qed.

(** X5 on the concrete run. *)
Lemma late_payments_mean_follows_tenure_witness :
  generate_telecom_customer_data (Some 3) Toy.world1
  = Some (Toy.customers, Toy.after_customers) /\
  Forall (fun c =>
            exists r,
              late_payments c
              = fst (poisson (if (account_length_months c <? 6)%Z
                              then 0.2 else 0.5)%float r))
         Toy.customers.
Proof.
  split; [exact toy_customers_run|].
  exact (late_payments_mean_follows_tenure (Some 3) Toy.world1 Toy.customers
           Toy.after_customers toy_customers_run).
Defined.

(** X6: whatever the attributes, the parameter of the churn draw is within
    [0.05, 0.8] and the parameter of the fraud draw within [0.02, 0.3]: both
    are probabilities a binomial draw accepts. *)
Theorem risk_parameters_are_probabilities a :
  ((0.05 <=? py_min (churn_probability a) 0.8)%float = true /\
   (py_min (churn_probability a) 0.8 <=? 0.8)%float = true) /\
  ((0.02 <=? py_min (fraud_probability a) 0.3)%float = true /\
   (py_min (fraud_probability a) 0.3 <=? 0.3)%float = true).
Proof.
  split; [apply churn_parameter_bounds|apply fraud_parameter_bounds].
Qed.

(** X7: when [choice] returns elements of its list, every row's [city] is
    one of the ten listed cities and its [contract_type] is Prepaid or
    Postpaid. *)
Theorem categories_are_the_listed_ones {RS : RandomState}
  (Hchoice : choice_law RS) num w customers w' :
  generate_telecom_customer_data num w = Some (customers, w') ->
  Forall (fun c =>
            In (city c) ghana_cities /\
            In (contract_type c) ["Prepaid"; "Postpaid"]%string)
         customers.
Proof.
  intros H. apply generate_telecom_customer_data_inv in H.
  destruct H as [_ Hrows]. revert Hrows. apply Forall_impl.
  intros c Hc. apply generated_row_draws in Hc.
  destruct Hc as (_ & (r1 & ->) & (r2 & ->)).
  split; apply Hchoice; discriminate.
Qed.

(** X7 on the concrete run. *)
Lemma categories_are_the_listed_ones_witness :
  choice_law Toy.stream /\
  generate_telecom_customer_data (Some 3) Toy.world1
  = Some (Toy.customers, Toy.after_customers) /\
  Forall (fun c =>
            In (city c) ghana_cities /\
            In (contract_type c) ["Prepaid"; "Postpaid"]%string)
         Toy.customers.
Proof.
  split; [exact toy_choice_law|]. split; [exact toy_customers_run|].
  exact (categories_are_the_listed_ones toy_choice_law (Some 3) Toy.world1
           Toy.customers Toy.after_customers toy_customers_run).
Defined.

(** * More about the transaction table *)

Lemma generate_transaction_data_made {RS : RandomState}
  customer_df lam w transactions w' :
  generate_transaction_data customer_df lam w = Some (transactions, w') ->
  (forall j, clock w' j = clock w (j + List.length transactions)%nat) /\
  forall k t, nth_error transactions k = Some t ->
              exists customer,
                In customer customer_df /\ made_by customer k (clock w k) t.
Proof.
  unfold generate_transaction_data. intros H.
  apply per_customer_loop_made in H. destruct H as (new & -> & Hclock & Hnew).
  cbn [app List.length Nat.add] in *. split; [exact Hclock|exact Hnew].
Qed.

(** X8: the [transaction_id] column is [TXN_00000001], [TXN_00000002], ...
    in row order: the counter runs over the whole table and is not reset
    from one customer to the next. *)
Theorem transaction_ids_are_sequential {RS : RandomState}
  customer_df lam w transactions w' :
  generate_transaction_data customer_df lam w = Some (transactions, w') ->
  map transaction_id transactions = transaction_ids (List.length transactions).
Proof.
  intros H. apply generate_transaction_data_made in H. destruct H as [_ H].
  unfold transaction_ids. apply map_by_position. intros j t Hj.
  destruct (H j t Hj) as (c & _ & _ & _ & Hid & _). exact Hid.
Qed.

(** X8 on the concrete run. *)
Lemma transaction_ids_are_sequential_witness :
  generate_transaction_data Toy.customers (Some 30%float) Toy.after_customers
  = Some (Toy.transactions, Toy.after_transactions) /\
  map transaction_id Toy.transactions
  = transaction_ids (List.length Toy.transactions).
Proof.
  split; [exact toy_transactions_run|].
  exact (transaction_ids_are_sequential Toy.customers (Some 30%float)
           Toy.after_customers Toy.transactions Toy.after_transactions
           toy_transactions_run).
Defined.

(** X9: no two rows of a generated transaction table share a
    [transaction_id]. *)
Theorem transaction_ids_are_unique {RS : RandomState}
  customer_df lam w transactions w' :
  generate_transaction_data customer_df lam w = Some (transactions, w') ->
  NoDup (map transaction_id transactions).
Proof.
  intros H. apply generate_transaction_data_made in H. destruct H as [_ H].
  rewrite (map_by_position transaction_id transactions
             (fun k => ("TXN_" ++ zero_padded 8 (Z.of_nat k + 1))%string)).
  - apply NoDup_map_injective; [|apply seq_NoDup].
    intros j k Hjk. apply transaction_id_inj, zero_padded_inj in Hjk; lia.
  - intros j t Hj. destruct (H j t Hj) as (c & _ & _ & _ & Hid & _). exact Hid.
Qed.

(** X9 on the concrete run. *)
Lemma transaction_ids_are_unique_witness :
  generate_transaction_data Toy.customers (Some 30%float) Toy.after_customers
  = Some (Toy.transactions, Toy.after_transactions) /\
  NoDup (map transaction_id Toy.transactions).
Proof.
  split; [exact toy_transactions_run|].
  exact (transaction_ids_are_unique Toy.customers (Some 30%float)
           Toy.after_customers Toy.transactions Toy.after_transactions
           toy_transactions_run).
Defined.

(** X10: every transaction's [amount] is at least 1. *)
Theorem amounts_are_at_least_one {RS : RandomState}
  customer_df lam w transactions w' :
  generate_transaction_data customer_df lam w = Some (transactions, w') ->
  Forall (fun t => (1 <=? amount t)%float = true) transactions.
Proof.
  intros H. apply generate_transaction_data_made in H. destruct H as [_ H].
  apply Forall_by_position. intros j t Hj.
  destruct (H j t Hj) as (c & _ & _ & _ & _ & _ & (r & ->) & _).
  apply py_max_at_least. reflexivity.
Qed.

(** X10 on the concrete run. *)
Lemma amounts_are_at_least_one_witness :
  generate_transaction_data Toy.customers (Some 30%float) Toy.after_customers
  = Some (Toy.transactions, Toy.after_transactions) /\
  Forall (fun t => (1 <=? amount t)%float = true) Toy.transactions.
Proof.
  split; [exact toy_transactions_run|].
  exact (amounts_are_at_least_one Toy.customers (Some 30%float)
           Toy.after_customers Toy.transactions Toy.after_transactions
           toy_transactions_run).
Defined.



(** X12: the transaction stage reads the clock exactly once per
    transaction it returns. *)
Theorem one_clock_reading_per_transaction {RS : RandomState}
  customer_df lam w transactions w' :
  generate_transaction_data customer_df lam w = Some (transactions, w') ->
  forall j, clock w' j = clock w (j + List.length transactions)%nat.
Proof.
  intros H. apply generate_transaction_data_made in H. destruct H as [H _].
  exact H.
Qed.

(** X12 on the concrete run. *)
Lemma one_clock_reading_per_transaction_witness :
  generate_transaction_data Toy.customers (Some 30%float) Toy.after_customers
  = Some (Toy.transactions, Toy.after_transactions) /\
  forall j, clock Toy.after_transactions j
            = clock Toy.after_customers (j + List.length Toy.transactions)%nat.
Proof.
  split; [exact toy_transactions_run|].
  exact (one_clock_reading_per_transaction Toy.customers (Some 30%float)
           Toy.after_customers Toy.transactions Toy.after_transactions
           toy_transactions_run).
Defined.

(** X13: the transactions come in the order of the customer table, one
    block per row; each block's size is a Poisson draw at the given mean (50
    when left out), a draw of zero giving no row, and the table's length is
    the sum of the draws. *)
Theorem transactions_follow_the_customer_order {RS : RandomState}
  customer_df lam w transactions w' :
  generate_transaction_data customer_df lam w = Some (transactions, w') ->
  exists counts,
    Forall2 (fun (_ : CustomerProfile) n =>
               exists r, n = Z.to_nat (fst (poisson (arg 50%float lam) r)))
      customer_df counts /\
    map owner transactions = owners_in_order customer_df counts /\
    List.length transactions = list_sum counts.
Proof.
  unfold generate_transaction_data. intros H.
  apply per_customer_loop_order in H. destruct H as (counts & Hcounts & Howners).
  exists counts. split; [exact Hcounts|]. cbn [map app] in Howners.
  split; [exact Howners|].
  rewrite <- (length_map owner), Howners.
  apply Forall2_length in Hcounts. clear Howners.
  revert counts Hcounts.
  induction customer_df as [|c rows IH]; intros [|n counts] Hlen;
    try discriminate; [reflexivity|].
  unfold owners_in_order in *. cbn [combine flat_map fst snd list_sum].
  rewrite length_app, repeat_length, IH by (cbn in Hlen; lia). reflexivity.
Qed.

(** X13 on the concrete run. *)
Lemma transactions_follow_the_customer_order_witness :
  generate_transaction_data Toy.customers (Some 30%float) Toy.after_customers
  = Some (Toy.transactions, Toy.after_transactions) /\
  exists counts,
    Forall2 (fun (_ : CustomerProfile) n =>
               exists r, n = Z.to_nat (fst (poisson 30 r)))
      Toy.customers counts /\
    map owner Toy.transactions = owners_in_order Toy.customers counts /\
    List.length Toy.transactions = list_sum counts.
Proof.
  split; [exact toy_transactions_run|].
  exact (transactions_follow_the_customer_order Toy.customers (Some 30%float)
           Toy.after_customers Toy.transactions Toy.after_transactions
           toy_transactions_run).
Defined.

(** X14: a transaction's [amount] is a draw of [lognormal(4, 1.5)] when its
    fraud label is set and of [lognormal(2, 0.8)] otherwise, rounded to two
    decimals and raised to 1; its type is drawn with the weights
    [0.2, 0.2, 0.1, 0.3, 0.2] when the label is set and
    [0.4, 0.3, 0.2, 0.05, 0.05] otherwise. *)
Theorem amount_and_type_follow_the_fraud_label {RS : RandomState}
  customer_df lam w transactions w' :
  generate_transaction_data customer_df lam w = Some (transactions, w') ->
  Forall (fun t =>
            (exists r,
               amount t =
               py_max 1 (py_round2 (fst ((if truthy (t_is_fraud t)
                                         then lognormal 4 1.5
                                         else lognormal 2 0.8) r)))) /\
            (exists r,
               transaction_type t =
               fst ((if truthy (t_is_fraud t)
                     then choice transaction_types
                            [0.2; 0.2; 0.1; 0.3; 0.2]%float
                     else choice transaction_types
                            [0.4; 0.3; 0.2; 0.05; 0.05]%float) r)))
         transactions.
Proof.
  intros H. apply generate_transaction_data_made in H. destruct H as [_ H].
  apply Forall_by_position. intros j t Hj.
  destruct (H j t Hj) as (c & _ & _ & Hfraud & _ & _ & Hamount & Htype).
  rewrite Hfraud. split; assumption.
Qed.

(** X14 on the concrete run. *)
Lemma amount_and_type_follow_the_fraud_label_witness :
  generate_transaction_data Toy.customers (Some 30%float) Toy.after_customers
  = Some (Toy.transactions, Toy.after_transactions) /\
  Forall (fun t =>
            (exists r,
               amount t =
               py_max 1 (py_round2 (fst ((if truthy (t_is_fraud t)
                                         then lognormal 4 1.5
                                         else lognormal 2 0.8) r)))) /\
            (exists r,
               transaction_type t =
               fst ((if truthy (t_is_fraud t)
                     then choice transaction_types
                            [0.2; 0.2; 0.1; 0.3; 0.2]%float
                     else choice transaction_types
                            [0.4; 0.3; 0.2; 0.05; 0.05]%float) r)))
         Toy.transactions.
Proof.
  split; [exact toy_transactions_run|].
  exact (amount_and_type_follow_the_fraud_label Toy.customers (Some 30%float)
           Toy.after_customers Toy.transactions Toy.after_transactions
           toy_transactions_run).
Defined.

(** X15: when [choice] returns elements of its list, every transaction's
    type is one of the five listed types. *)
Theorem transaction_types_are_the_listed_ones {RS : RandomState}
  (Hchoice : choice_law RS) customer_df lam w transactions w' :
  generate_transaction_data customer_df lam w = Some (transactions, w') ->
  Forall (fun t => In (transaction_type t) transaction_types) transactions.
Proof.
  intros H. apply generate_transaction_data_made in H. destruct H as [_ H].
  apply Forall_by_position. intros j t Hj.
  destruct (H j t Hj) as (c & _ & _ & _ & _ & _ & _ & (r & ->)).
  destruct (truthy (is_fraud c)); apply Hchoice; discriminate.
Qed.

(** X15 on the concrete run. *)
Lemma transaction_types_are_the_listed_ones_witness :
  choice_law Toy.stream /\
  generate_transaction_data Toy.customers (Some 30%float) Toy.after_customers
  = Some (Toy.transactions, Toy.after_transactions) /\
  Forall (fun t => In (transaction_type t) transaction_types) Toy.transactions.
Proof.
  split; [exact toy_choice_law|]. split; [exact toy_transactions_run|].
  exact (transaction_types_are_the_listed_ones toy_choice_law Toy.customers
           (Some 30%float) Toy.after_customers Toy.transactions
           Toy.after_transactions toy_transactions_run).
Defined.

(** * More about the two stages together *)

(** X16: with a population size of zero or less both stages run and
    return two empty tables; the stream is reseeded and no clock reading is
    consumed. *)
Theorem no_customers_no_transactions {RS : RandomState} n lam w :
  n <= 0 ->
  pipeline n lam w
  = Some (([], []), {| rng_st := seed 42; clock := clock w |}).
Proof.
  intros Hn. unfold pipeline, generate_telecom_customer_data. cbn [arg].
  replace (Z.to_nat n) with O by lia. reflexivity.
Qed.

(** X16 on the concrete run. *)
Lemma no_customers_no_transactions_witness :
  0 <= 0 /\
  pipeline 0 30 Toy.world1
  = Some (([], []), {| rng_st := seed 42; clock := clock Toy.world1 |}).
Proof.
  split; [lia|]. apply (no_customers_no_transactions 0 30%float Toy.world1). lia.
Defined.

(** X17: in a run of both stages, under the laws of the stream, every
    transaction's [customer_id] is one of [CUST_000001] ... [CUST_<N>], the
    identifiers of the customer table, and its fraud label is 0 or 1. *)
Theorem pipeline_transactions_point_into_the_table {RS : RandomState}
  (laws : numpy_laws RS) n lam w customers transactions w' :
  pipeline n lam w = Some ((customers, transactions), w') ->
  map customer_id customers = customer_ids (Z.to_nat n) /\
  Forall (fun t =>
            In (t_customer_id t) (customer_ids (Z.to_nat n)) /\
            (t_is_fraud t = 0 \/ t_is_fraud t = 1))
         transactions.
Proof.
  unfold pipeline. intros H.
  apply bind_inv in H. destruct H as (cs & v & Hcs & H).
  apply bind_inv in H. destruct H as (ts & v' & Hts & H).
  apply ret_inv in H. destruct H as [H _]. injection H as -> ->.
  assert (Hids : map customer_id cs = customer_ids (Z.to_nat n)).
  { unfold generate_telecom_customer_data in Hcs.
    apply bind_inv in Hcs. destruct Hcs as (u & v0 & _ & Hcs).
    apply customer_loop_rows in Hcs. destruct Hcs as (_ & new & -> & Hnew).
    cbn [app arg]. rewrite Hnew. unfold customer_ids. apply map_ext.
    intros k. do 2 f_equal. }
  split; [exact Hids|].
  apply generate_telecom_customer_data_inv in Hcs. destruct Hcs as [_ Hrows].
  unfold generate_transaction_data in Hts.
  apply (per_customer_loop_inv cs) in Hts; [|apply incl_refl|constructor].
  revert Hts. apply Forall_impl. intros t (c & Hin & Hid & Hfraud).
  rewrite Hid, Hfraud, <- Hids. split; [apply in_map; exact Hin|].
  rewrite Forall_forall in Hrows.
  pose proof (row_in_ranges laws c (Hrows c Hin)) as Hr.
  unfold in_ranges in Hr. tauto.
Qed.

(** X17 on the concrete run. *)
Lemma pipeline_transactions_point_into_the_table_witness :
  numpy_laws Toy.stream /\
  pipeline 3 30 Toy.world1
  = Some ((Toy.customers, Toy.transactions), Toy.after_transactions) /\
  Forall (fun t =>
            In (t_customer_id t) (customer_ids 3) /\
            (t_is_fraud t = 0 \/ t_is_fraud t = 1))
         Toy.transactions.
Proof.
  split; [exact toy_laws|]. split; [exact toy_pipeline_run|].
  exact (proj2 (pipeline_transactions_point_into_the_table toy_laws 3 30%float
                  Toy.world1 Toy.customers Toy.transactions
                  Toy.after_transactions toy_pipeline_run)).
Defined.
